(** * unwebhook: the hook matching, templating and execution engine

    A shallow embedding of [CreateTemplates], [Execute], [processEvent],
    [processCommand] and [runCommand] (the methods of [Hook]), together with
    the record [Hook] of webhook.go.

    What the Go code obtains from libraries and from the operating system is
    gathered in one record, [World]: template parsing, environment expansion,
    JSON marshalling, [fmt] printing, the search path, and the behaviour of a
    spawned child process.  Everything the engine does that an operator can
    observe (log lines, path look-ups, spawned and killed processes) is
    appended to a trace; the engine functions are state-passing functions over
    that trace, and they return Go's [error] value, or a run-time panic. *)

From Stdlib Require Import ZArith.
From stdpp Require Import base gmap strings list.

Open Scope Z_scope.

(** ** Event data *)

(** Modelled from the spec: the values of an event (the declaration of
    [Event] is not among the sources): a "string, number, boolean, null, nested
    mapping, or ordered sequence thereof", that is a Go [interface{}] as it
    comes out of the JSON decoder.  The engine never inspects a number, it is
    only carried.  [VOpaque] stands for any other Go value an [interface{}]
    may hold (a channel, a func, ...), named by its Go type. *)
#[warnings="-register-all"]
Inductive Value : Type :=
| VNull
| VBool (b : bool)
| VNum (n : Z)
| VStr (s : string)
| VList (l : list Value)
| VMap (m : gmap string Value)
| VOpaque (goType : string).

(** Modelled from the spec: the type [Event], a "mapping from string key to
    arbitrary structured value".  The engine indexes it and assigns to it
    ([e["type"]], [e["commit"] = c]), so it is a Go map; a Go map is a
    reference, and an assignment through it is seen by every holder of the
    map.  The functions below that assign to the event return its new
    content. *)
Abbreviation Event := (gmap string Value).

(** [v.(string)]: the string held by the interface, if it holds one.  A
    missing key gives the nil interface, for which the assertion fails too. *)
Definition asString (v : option Value) : option string :=
  match v with
  | Some (VStr s) => Some s
  | _ => None
  end.

(** [generic.(map[string]interface{})] *)
Definition asMap (v : Value) : option Event :=
  match v with
  | VMap m => Some m
  | _ => None
  end.

(** ** Results *)

(** A Go pair (value, error). *)
Inductive Res (A : Type) : Type :=
| Val (a : A)
| Fail (msg : string).
Arguments Val {A} a.
Arguments Fail {A} msg.

Inductive PanicKind : Type :=
| IndexOutOfRange
| NilDereference.

(** What a call of an engine function ends with: a normal return (for a
    function returning [error], [Ok tt] is the nil error), a non-nil error,
    or a run-time panic, which unwinds the whole call stack. *)
Inductive Outcome (A : Type) : Type :=
| Ok (a : A)
| Err (msg : string)
| Panic (p : PanicKind).
Arguments Ok {A} a.
Arguments Err {A} msg.
Arguments Panic {A} p.

(** ** Templates *)

(** The argument of a template action: the whole data ([.]) or one of its
    fields ([.key]). *)
Inductive Arg : Type :=
| Dot
| Field (key : string).

(** A compiled [text/template], as a sequence of nodes: literal text, the
    action that prints an argument, the action that applies the function
    [json] of [templateFuncs] to an argument, and any other construct of the
    template language, given by what it writes for an event and the error it
    stops with, if any. *)
Inductive Node : Type :=
| NText (s : string)
| NPrint (a : Arg)
| NJson (a : Arg)
| NOpaque (run : Event -> string * option string).

Abbreviation Template := (list Node).

(** ** Observable effects *)

Inductive Severity : Type := Info | Warning | Error.

(** The glog lines of the engine, one constructor per call site. *)
Inductive LogMsg : Type :=
| NonStringEventType
| DisallowedEventType (url eventType : string)
| NonStringPipelineStatus
| IncorrectPipelineStatus (url status : string)
| NonStringRef
| IgnoredBranch (url ref : string)
| CommitHadType (generic : Value)
| ErrorProcessing (url err : string)
| DumpEvent (e : Event)
| Running (args : list string).

Inductive Effect : Type :=
| ELog (sev : Severity) (msg : LogMsg)
  (** entry of [processEvent], with the content of the event map at the call *)
| EProcessEvent (e : Event)
  (** [t.Execute(buf, e)] *)
| ERender (t : Template)
  (** [exec.LookPath(file)] and what it returned *)
| ELookPath (file : string) (r : Res string)
  (** [cmd.Start()] of [exec.Command(args[0], args[1:]...)] with [cmd.Env]
      and [cmd.Dir]; an empty [env] is Go's nil [cmd.Env]: inherit *)
| ESpawn (args env : list string) (dir : string)
  (** [cmd.Process.Kill()] *)
| EKill (args : list string).

Abbreviation Trace := (list Effect).

(** How a started child behaves, left alone: [cmd.Start()] fails (the error
    is dropped by [runCommand], [cmd.Process] stays nil and [cmd.Wait()]
    returns at once, with an error that is dropped too), or the child exits
    [elapsed] nanoseconds after the start with an exit status, or it never
    exits. *)
Inductive ChildRun : Type :=
| StartFailed
| Exits (elapsed : Z) (status : Z)
| Hangs.

(** ** The world outside the engine *)

Record World : Type := mkWorld {
  (** [os.ExpandEnv] *)
  expandEnv : string -> string;
  (** [template.New("tmpl").Funcs(templateFuncs).Parse] *)
  parse : string -> Res Template;
  (** [json.Marshal] *)
  marshal : Value -> Res string;
  (** [fmt]'s default format of a value that is not a string *)
  fmtValue : Value -> string;
  (** [Event.Commits()], the commit list derived from the payload; [None] is
      the nil slice *)
  Commits : Event -> option (list Value);
  (** [glog.V(1)] *)
  verbose : bool;
  (** [exec.LookPath], in the state of the file system the history led to *)
  lookPath : Trace -> string -> Res string;
  (** the behaviour of the child started by the last [ESpawn] of the history *)
  child : Trace -> ChildRun;
  (** which ready case [select] takes when the child's exit and the timer
      fall together: [true] for [<-done] *)
  tie : Trace -> bool
}.

(** ** The Hook record (webhook.go) *)

(** A slice is a list; the nil slice is the empty list ([len] and [range] do
    not tell them apart, and the one nil test of the engine guards a loop).
    A [*template.Template] is an [option]: [None] is the nil pointer. *)
Record Hook : Type := mkHook {
  Url : string;
  Dir : string;
  Env : list string;
  PerCommit : bool;
  AllowEvent : list string;
  AllowPipelineStatus : list string;
  AllowBranches : list string;
  Commands : list (list string);
  Timeout : Z;
  Secret : string;
  cmdTemplate : list (list (option Template));
  envTemplate : list (option Template);
  dirTemplate : option Template
}.

Definition set_cmdTemplate (hook : Hook) (v : list (list (option Template))) : Hook :=
  mkHook (Url hook) (Dir hook) (Env hook) (PerCommit hook) (AllowEvent hook)
    (AllowPipelineStatus hook) (AllowBranches hook) (Commands hook)
    (Timeout hook) (Secret hook) v (envTemplate hook) (dirTemplate hook).

Definition set_envTemplate (hook : Hook) (v : list (option Template)) : Hook :=
  mkHook (Url hook) (Dir hook) (Env hook) (PerCommit hook) (AllowEvent hook)
    (AllowPipelineStatus hook) (AllowBranches hook) (Commands hook)
    (Timeout hook) (Secret hook) (cmdTemplate hook) v (dirTemplate hook).

Definition set_dirTemplate (hook : Hook) (v : option Template) : Hook :=
  mkHook (Url hook) (Dir hook) (Env hook) (PerCommit hook) (AllowEvent hook)
    (AllowPipelineStatus hook) (AllowBranches hook) (Commands hook)
    (Timeout hook) (Secret hook) (cmdTemplate hook) (envTemplate hook) v.

Definition set_Timeout (hook : Hook) (v : Z) : Hook :=
  mkHook (Url hook) (Dir hook) (Env hook) (PerCommit hook) (AllowEvent hook)
    (AllowPipelineStatus hook) (AllowBranches hook) (Commands hook)
    v (Secret hook) (cmdTemplate hook) (envTemplate hook) (dirTemplate hook).

Definition set_Secret (hook : Hook) (v : string) : Hook :=
  mkHook (Url hook) (Dir hook) (Env hook) (PerCommit hook) (AllowEvent hook)
    (AllowPipelineStatus hook) (AllowBranches hook) (Commands hook)
    (Timeout hook) v (cmdTemplate hook) (envTemplate hook) (dirTemplate hook).

(** ** The trace monad *)

Definition M (A : Type) : Type := Trace -> Trace * Outcome A.

Definition ret {A} (a : A) : M A := fun tr => (tr, Ok a).

Definition bind {A B} (m : M A) (k : A -> M B) : M B :=
  fun tr =>
    match m tr with
    | (tr', Ok a) => k a tr'
    | (tr', Err msg) => (tr', Err msg)
    | (tr', Panic p) => (tr', Panic p)
    end.

(** [return err] with a non-nil error *)
Definition fail {A} (msg : string) : M A := fun tr => (tr, Err msg).

Definition panic {A} (p : PanicKind) : M A := fun tr => (tr, Panic p).

Definition emit (ev : Effect) : M unit := fun tr => (tr ++ [ev], Ok tt).

(** the history so far, for the oracles of the world *)
Definition history : M Trace := fun tr => (tr, Ok tr).

Declare Scope go_scope.
Delimit Scope go_scope with go.
Notation "x <- m ;; k" := (bind m (fun x => k))
  (at level 100, m at next level, right associativity) : go_scope.
Notation "m ;;; k" := (bind m (fun _ => k))
  (at level 100, right associativity) : go_scope.
Open Scope go_scope.

Ltac unfold_go := unfold bind, ret, fail, panic, emit, history in *.

(** ** Strings *)

(** [s[n:]] *)
Fixpoint sliceFrom (n : nat) (s : string) : string :=
  match n, s with
  | O, _ => s
  | S n', String _ s' => sliceFrom n' s'
  | S _, EmptyString => EmptyString
  end.

(** [strings.HasPrefix(s, prefix)] *)
Definition HasPrefix (s prefix : string) : bool := String.prefix prefix s.

Fixpoint joinWith (sep : string) (l : list string) : string :=
  match l with
  | [] => ""
  | [x] => x
  | x :: rest => x +:+ sep +:+ joinWith sep rest
  end.

(** [fmt]'s [%v] of a [[]string]: the elements between brackets, separated by
    a space. *)
Definition fmtArgs (args : list string) : string :=
  "[" +:+ joinWith " " args +:+ "]".

(** ** The timer of [runCommand] *)

(** [time.Duration] is an [int64] count of nanoseconds; the product
    [time.Duration(hook.Timeout) * time.Second] wraps around. *)
Definition wrap64 (z : Z) : Z := (z + 2 ^ 63) mod 2 ^ 64 - 2 ^ 63.

Definition timerNanos (hook : Hook) : Z := wrap64 (Timeout hook * 1000000000).

(** A timer of zero or negative duration fires at once. *)
Definition timerAt (hook : Hook) : Z := Z.max 0 (timerNanos hook).

(** The moment [cmd.Wait()] returns and [done <- 1] is sent, if ever. *)
Definition doneAt (c : ChildRun) : option Z :=
  match c with
  | StartFailed => Some 0
  | Exits elapsed _ => Some (Z.max 0 elapsed)
  | Hangs => None
  end.

Inductive SelectCase : Type := CaseDone | CaseTimer.

(** [select { case <-done: ... case <-timer.C: ... }]: the case that becomes
    ready first is taken. *)
Definition selectCase (done : option Z) (timer : Z) (tiebreak : bool) : SelectCase :=
  match done with
  | None => CaseTimer
  | Some d =>
      if d <? timer then CaseDone
      else if timer <? d then CaseTimer
      else if tiebreak then CaseDone else CaseTimer
  end.

(** [for _, a := range list { if a == x { allowed = true; break } }] *)
Fixpoint allowed (list : list string) (x : string) : bool :=
  match list with
  | [] => false
  | a :: rest => if String.eqb a x then true else allowed rest x
  end.

Definition prefixString : string := "refs/heads/".

(** Strip off refs/heads, if present. *)
Definition stripRef (ref : string) : string :=
  if HasPrefix ref prefixString then sliceFrom (String.length prefixString) ref
  else ref.

Section Engine.

Variable w : World.

(** *** templateFuncs *)

(** The entry ["json"] of [templateFuncs]: a function of one argument with
    the single result [string]. *)
Definition templateFuncs_json (obj : Value) : string :=
  match marshal w obj with
  | Fail err => "<< " +:+ err +:+ " >>"
  | Val result => result
  end.

(** *** Rendering a compiled template *)

Definition evalArg (e : Event) (a : Arg) : option Value :=
  match a with
  | Dot => Some (VMap e)
  | Field key => e !! key
  end.

(** What one node writes, and the error it stops the execution with.  A
    field missing from the map prints as [<no value>]; handed to a function
    whose parameter is an [interface{}] it is nil. *)
Definition execNode (n : Node) (e : Event) : string * option string :=
  match n with
  | NText s => (s, None)
  | NPrint a =>
      match evalArg e a with
      | Some (VStr s) => (s, None)
      | Some v => (fmtValue w v, None)
      | None => ("<no value>", None)
      end
  | NJson a => (templateFuncs_json (default VNull (evalArg e a)), None)
  | NOpaque run => run e
  end.

(** [t.Execute(buf, e)]: the content of the buffer and the error. *)
Fixpoint tmplExecute (t : Template) (e : Event) : string * option string :=
  match t with
  | [] => ("", None)
  | n :: rest =>
      match execNode n e with
      | (s, Some err) => (s, Some err)
      | (s, None) =>
          let '(s', err) := tmplExecute rest e in (s +:+ s', err)
      end
  end.

(** [buf := &bytes.Buffer{}; err := t.Execute(buf, e)] followed by
    [if err != nil { return err }]; the content of the buffer is the
    result.  Executing a nil template panics. *)
Definition render (t : option Template) (e : Event) : M string :=
  match t with
  | None => panic NilDereference
  | Some t =>
      emit (ERender t) ;;;
      match tmplExecute t e with
      | (_, Some err) => fail err
      | (out, None) => ret out
      end
  end.

(** *** CreateTemplates *)

Definition createTemplate (source : string) : Res Template :=
  parse w (expandEnv w source).

(** The loop [for j, cmd := range cmdList] over a slice made with all
    entries nil: the entries compiled so far, nil from the failing entry on,
    and the error. *)
Fixpoint compileList (sources : list string) : list (option Template) * option string :=
  match sources with
  | [] => ([], None)
  | source :: rest =>
      match createTemplate source with
      | Fail err => (None :: replicate (length rest) None, Some err)
      | Val t => let '(ts, err) := compileList rest in (Some t :: ts, err)
      end
  end.

(** The outer loop [for i, cmdList := range hook.Commands]. *)
Fixpoint compileCommands (commands : list (list string))
  : list (list (option Template)) * option string :=
  match commands with
  | [] => ([], None)
  | cmdList :: rest =>
      match compileList cmdList with
      | (ts, Some err) => (ts :: replicate (length rest) [], Some err)
      | (ts, None) =>
          let '(tss, err) := compileCommands rest in (ts :: tss, err)
      end
  end.

(** The hook after the call, and the returned error ([None] is nil). *)
Definition CreateTemplates (hook : Hook) : Hook * option string :=
  match compileCommands (Commands hook) with
  | (_, Some err) => (set_cmdTemplate hook [], Some err)
  | (tss, None) =>
      let hook := set_cmdTemplate hook tss in
      let '(hook, err) :=
        match Env hook with
        | [] => (set_envTemplate hook [], None)
        | _ :: _ =>
            let '(ts, err) := compileList (Env hook) in
            (set_envTemplate hook ts, err)
        end in
      match err with
      | Some err => (hook, Some err)
      | None =>
          if String.eqb (Dir hook) "" then (set_dirTemplate hook None, None)
          else
            match createTemplate (Dir hook) with
            | Fail err => (set_dirTemplate hook None, Some err)
            | Val t => (set_dirTemplate hook (Some t), None)
            end
      end
  end.

(** *** main: loading the hooks (webhook.go) *)

(** One round of the loop [for _, h := range config.Hook] of [main]: the
    hook as it is left, and whether [CreateTemplates] failed. *)
Definition loadHook (commandTimeout : Z) (secret : string) (h : Hook) : Hook * bool :=
  let h := if Timeout h =? 0 then set_Timeout h commandTimeout else h in
  let h :=
    if String.eqb (Secret h) "none" then set_Secret h ""
    else if String.eqb (Secret h) "" then set_Secret h secret
    else h in
  match CreateTemplates h with
  | (h, Some _) => (h, true)
  | (h, None) => (h, false)
  end.

(** The whole loop, followed by [if failed { os.Exit(1) }]: the hooks
    [RunServer] is called with, or [None] when the process exits. *)
Definition loadHooks (commandTimeout : Z) (secret : string) (hooks : list Hook)
  : option (list Hook) :=
  let loaded := map (loadHook commandTimeout secret) hooks in
  if existsb snd loaded then None else Some (map fst loaded).

(** *** processCommand *)

Fixpoint processCommand (e : Event) (templateList : list (option Template))
  : M (list string) :=
  match templateList with
  | [] => ret []
  | t :: rest =>
      cmd <- render t e ;;
      cmdList <- processCommand e rest ;;
      ret (cmd :: cmdList)
  end.

(** *** runCommand *)

(** [args[0]] panics on an empty list, after the log line.  The results of
    [cmd.Start()] and [cmd.Wait()] are dropped: the case [<-done] returns nil
    whatever the child did.  In the case [<-timer.C], [cmd.Process.Kill()]
    dereferences [cmd.Process], which is nil when the start failed. *)
Definition runCommand (hook : Hook) (args env : list string) (dir : string) : M unit :=
  emit (ELog Info (Running args)) ;;;
  match args with
  | [] => panic IndexOutOfRange
  | _ :: _ =>
      emit (ESpawn args env dir) ;;;
      tr <- history ;;
      let c := child w tr in
      match selectCase (doneAt c) (timerAt hook) (tie w tr) with
      | CaseDone => ret tt
      | CaseTimer =>
          match c with
          | StartFailed => panic NilDereference
          | _ => emit (EKill args)
          end ;;;
          fail ("Command " +:+ fmtArgs args +:+ " timed out")
      end
  end.

(** *** processEvent *)

(** [for i, t := range hook.envTemplate], filling [env]. *)
Fixpoint renderEnv (e : Event) (ts : list (option Template)) : M (list string) :=
  match ts with
  | [] => ret []
  | t :: rest =>
      s <- render t e ;;
      env <- renderEnv e rest ;;
      ret (s :: env)
  end.

(** The first loop over [hook.cmdTemplate]: render the command, look its
    first argument up on the search path and put the path in its place. *)
Fixpoint prepare (e : Event) (tss : list (list (option Template)))
  : M (list (list string)) :=
  match tss with
  | [] => ret []
  | t :: rest =>
      cmd <- processCommand e t ;;
      match cmd with
      | [] => panic IndexOutOfRange
      | name :: args =>
          tr <- history ;;
          let r := lookPath w tr name in
          emit (ELookPath name r) ;;;
          match r with
          | Fail err => fail ("Executable " +:+ name +:+ " " +:+ err)
          | Val execPath =>
              cmds <- prepare e rest ;;
              ret ((execPath :: args) :: cmds)
          end
      end
  end.

(** The second loop, [for _, cmd := range cmds]. *)
Fixpoint runCommands (hook : Hook) (cmds : list (list string))
  (env : list string) (dir : string) : M unit :=
  match cmds with
  | [] => ret tt
  | cmd :: rest =>
      runCommand hook cmd env dir ;;;
      runCommands hook rest env dir
  end.

(** [dir := ""; if hook.dirTemplate != nil { ... }] *)
Definition renderDir (hook : Hook) (e : Event) : M string :=
  match dirTemplate hook with
  | None => ret ""
  | Some t => render (Some t) e
  end.

Definition processEvent (hook : Hook) (e : Event) : M unit :=
  emit (EProcessEvent e) ;;;
  dir <- renderDir hook e ;;
  env <- renderEnv e (envTemplate hook) ;;
  cmds <- prepare e (cmdTemplate hook) ;;
  runCommands hook cmds env dir.

(** *** Execute *)

(** The three filters; each gives the log line of its rejection, or [None]
    to go on. *)
Definition checkEventType (hook : Hook) (e : Event) : option (Severity * LogMsg) :=
  match AllowEvent hook with
  | [] => None
  | _ :: _ =>
      match asString (e !! "type") with
      | None => Some (Warning, NonStringEventType)
      | Some eventType =>
          if allowed (AllowEvent hook) eventType then None
          else Some (Warning, DisallowedEventType (Url hook) eventType)
      end
  end.

Definition checkPipelineStatus (hook : Hook) (e : Event) : option (Severity * LogMsg) :=
  match AllowPipelineStatus hook with
  | [] => None
  | _ :: _ =>
      match asString (e !! "status") with
      | None => Some (Warning, NonStringPipelineStatus)
      | Some pipelineStatus =>
          if allowed (AllowPipelineStatus hook) pipelineStatus then None
          else Some (Info, IncorrectPipelineStatus (Url hook) pipelineStatus)
      end
  end.

Definition checkBranch (hook : Hook) (e : Event) : option (Severity * LogMsg) :=
  match AllowBranches hook with
  | [] => None
  | _ :: _ =>
      match asString (e !! "ref") with
      | None => Some (Warning, NonStringRef)
      | Some ref =>
          let ref := stripRef ref in
          if allowed (AllowBranches hook) ref then None
          else Some (Info, IgnoredBranch (Url hook) ref)
      end
  end.

(** [err := hook.processEvent(e); if err != nil { glog.Errorf(...);
    if glog.V(1) { glog.Info(e) } }] *)
Definition processAndLog (hook : Hook) (e : Event) : M unit :=
  fun tr =>
    match processEvent hook e tr with
    | (tr', Err err) =>
        (emit (ELog Error (ErrorProcessing (Url hook) err)) ;;;
         if verbose w then emit (ELog Info (DumpEvent e)) else ret tt) tr'
    | r => r
    end.

(** [for _, generic := range commits]; the event map is assigned to in each
    iteration, and its content is threaded through the loop. *)
Fixpoint perCommit (hook : Hook) (commits : list Value) (e : Event) (tr : Trace)
  : Event * (Trace * Outcome unit) :=
  match commits with
  | [] => (e, (tr, Ok tt))
  | generic :: rest =>
      match asMap generic with
      | None =>
          perCommit hook rest e (tr ++ [ELog Error (CommitHadType generic)])
      | Some c =>
          let e := <["commit" := VMap c]> e in
          match processAndLog hook e tr with
          | (tr', Panic p) => (e, (tr', Panic p))
          | (tr', _) => perCommit hook rest e tr'
          end
      end
  end.

(** The part of [Execute] after the filters. *)
Definition dispatch (hook : Hook) (e : Event) (tr : Trace)
  : Event * (Trace * Outcome unit) :=
  if PerCommit hook then
    match Commits w e with
    | Some commits => perCommit hook commits e tr
    | None => (e, (tr, Ok tt))
    end
  else (e, processAndLog hook e tr).

(** The content of the event map after the call, the trace and the way the
    call ended. *)
Definition Execute (hook : Hook) (e : Event) (tr : Trace)
  : Event * (Trace * Outcome unit) :=
  match checkEventType hook e with
  | Some (sev, msg) => (e, (tr ++ [ELog sev msg], Ok tt))
  | None =>
      match checkPipelineStatus hook e with
      | Some (sev, msg) => (e, (tr ++ [ELog sev msg], Ok tt))
      | None =>
          match checkBranch hook e with
          | Some (sev, msg) => (e, (tr ++ [ELog sev msg], Ok tt))
          | None => dispatch hook e tr
          end
      end
  end.

End Engine.

(** ** Reading a trace *)

Definition isSpawn (ev : Effect) : bool :=
  match ev with ESpawn _ _ _ => true | _ => false end.

Definition isKill (ev : Effect) : bool :=
  match ev with EKill _ => true | _ => false end.

Definition isLookPath (ev : Effect) : bool :=
  match ev with ELookPath _ _ => true | _ => false end.

Definition isRender (ev : Effect) : bool :=
  match ev with ERender _ => true | _ => false end.

(** What the preparing stage of a unit leaves in the trace. *)
Definition isPrep (ev : Effect) : bool :=
  match ev with
  | EProcessEvent _ | ERender _ | ELookPath _ _ => true
  | _ => false
  end.

(** What the executing stage of a unit leaves in the trace. *)
Definition isRun (ev : Effect) : bool :=
  match ev with
  | ELog Info (Running _) | ESpawn _ _ _ | EKill _ => true
  | _ => false
  end.

(** The events [processEvent] was entered with, in order. *)
Fixpoint calls (tr : Trace) : list Event :=
  match tr with
  | [] => []
  | EProcessEvent e :: rest => e :: calls rest
  | _ :: rest => calls rest
  end.

(** The commands started, in order. *)
Fixpoint spawned (tr : Trace) : list (list string) :=
  match tr with
  | [] => []
  | ESpawn args _ _ :: rest => args :: spawned rest
  | _ :: rest => spawned rest
  end.

(** The path look-ups made and what they returned, in order. *)
Fixpoint lookups (tr : Trace) : list (string * Res string) :=
  match tr with
  | [] => []
  | ELookPath file r :: rest => (file, r) :: lookups rest
  | _ :: rest => lookups rest
  end.

Definition resolved (l : string * Res string) : Prop :=
  exists path, l.2 = Val path.

(** ** The filters, as the specification words them *)

(** An allow-list that is not empty rejects an event whose field is absent,
    is not a string, or is a string that is not in the list. *)
Definition rejectedBy (allowList : list string) (field : option Value) : Prop :=
  allowList <> [] /\
  forall s, field = Some (VStr s) -> s ∉ allowList.

(** The same for the branch list, the comparison being made after one leading
    [refs/heads/] is taken off the string. *)
Definition branchRejected (allowList : list string) (field : option Value) : Prop :=
  allowList <> [] /\
  forall s, field = Some (VStr s) -> stripRef s ∉ allowList.

(** All three filters let the event through. *)
Definition accepts (hook : Hook) (e : Event) : Prop :=
  ~ rejectedBy (AllowEvent hook) (e !! "type") /\
  ~ rejectedBy (AllowPipelineStatus hook) (e !! "status") /\
  ~ branchRejected (AllowBranches hook) (e !! "ref").

(** The event of iteration [k] of a per-commit dispatch, as the specification
    words it: the event with the commit record under the key [commit]. *)
Definition withCommit (e : Event) (c : Event) : Event := <["commit" := VMap c]> e.

(** ** A hook as the configuration loader hands it over *)

Definition newHook (url dir : string) (env : list string) (perCommit : bool)
  (allowEvent allowPipelineStatus allowBranches : list string)
  (commands : list (list string)) (timeout : Z) : Hook :=
  mkHook url dir env perCommit allowEvent allowPipelineStatus allowBranches
    commands timeout "" [] [] None.

(** Every slot of the compiled structures holds the template compiled from
    the source at the same place. *)
Definition compiledFrom (w : World) (sources : list string) (ts : list (option Template)) : Prop :=
  Forall2 (fun source slot => exists t, slot = Some t /\ createTemplate w source = Val t)
    sources ts.

(** The invariant of a hook that serves events: the compiled structures are
    fully populated and in step with their source lists. *)
Definition consistent (w : World) (hook : Hook) : Prop :=
  Forall2 (compiledFrom w) (Commands hook) (cmdTemplate hook) /\
  compiledFrom w (Env hook) (envTemplate hook) /\
  (if String.eqb (Dir hook) "" then dirTemplate hook = None
   else exists t, dirTemplate hook = Some t /\ createTemplate w (Dir hook) = Val t).

(** ** A world to run examples in *)

Module Sample.

(** A parser that knows the templates of the examples: an unclosed action
    is an error, a source without an action is literal text. *)
Definition parse (source : string) : Res Template :=
  if String.eqb source "{{.ref}}" then Val [NPrint (Field "ref")]
  else if String.eqb source "{{json .payload}}" then Val [NJson (Field "payload")]
  else if String.eqb source "B={{" then Fail "template: tmpl:1: unclosed action"
  else Val [NText source].

Definition marshal (v : Value) : Res string :=
  match v with
  | VOpaque goType => Fail ("json: unsupported type: " +:+ goType)
  | VNull => Val "null"
  | VBool true => Val "true"
  | VBool false => Val "false"
  | _ => Val "{}"
  end.

Definition lookPath (tr : Trace) (file : string) : Res string :=
  if String.eqb file "nosuchprogram" then Fail "executable file not found in $PATH"
  else Val ("/bin/" +:+ file).

(** [/bin/sleep] runs for five seconds, [/bin/false] exits with status 1
    after a millisecond, anything else exits with status 0 after a
    millisecond. *)
Definition child (tr : Trace) : ChildRun :=
  match last tr with
  | Some (ESpawn (path :: _) _ _) =>
      if String.eqb path "/bin/sleep" then Exits 5000000000 0
      else if String.eqb path "/bin/false" then Exits 1000000 1
      else Exits 1000000 0
  | _ => StartFailed
  end.

(** A sample derivation of the commit list (the method [Commits] of [Event]
    is not among the sources): the list under the key [commits]. *)
Definition Commits (e : Event) : option (list Value) :=
  match e !! "commits" with
  | Some (VList l) => Some l
  | _ => None
  end.

Definition world : World :=
  mkWorld (fun s => s) parse marshal (fun _ => "<value>") Commits false
    lookPath child (fun _ => true).

(** Two commands, the first of which exits with status 1. *)
Definition falseThenEcho : Hook :=
  (CreateTemplates world
     (newHook "/deploy" "" [] false [] [] [] [["false"]; ["echo"; "done"]] 5)).1.

(** The hook and the events of the branch scenario. *)
Definition echoRef : Hook :=
  (CreateTemplates world
     (newHook "/deploy" "" [] false [] [] ["main"] [["echo"; "{{.ref}}"]] 5)).1.

Definition pushMain : Event := {[ "ref" := VStr "refs/heads/main" ]}.

(** A per-commit hook and an event carrying two commit records. *)
Definition perCommitEcho : Hook :=
  (CreateTemplates world
     (newHook "/commits" "" [] true [] [] [] [["echo"; "commit"]] 5)).1.

Definition commitA : Event := {[ "id" := VStr "a" ]}.
Definition commitB : Event := {[ "id" := VStr "b" ]}.

Definition pushTwo : Event :=
  {[ "commits" := VList [VMap commitA; VMap commitB] ]}.

(** The second environment entry does not parse. *)
Definition badEnv : Hook :=
  newHook "/deploy" "" ["A=1"; "B={{"] false [] [] [] [["echo"; "hi"]] 5.

(** The directory does not parse. *)
Definition badDir : Hook :=
  newHook "/deploy" "B={{" [] false [] [] [] [["echo"; "hi"]] 5.

(** A hook one of whose commands has no argument at all. *)
Definition emptyCommand : Hook :=
  (CreateTemplates world (newHook "/deploy" "" [] false [] [] [] [[]] 5)).1.

Definition sleepFive : Hook :=
  (CreateTemplates world (newHook "/sleep" "" [] false [] [] [] [["sleep"; "5"]] 1)).1.

Definition chanPayload : Event := {[ "payload" := VOpaque "chan int" ]}.

(** A hook for push events only, and an event of another type. *)
Definition onlyPush : Hook :=
  (CreateTemplates world
     (newHook "/deploy" "" [] false ["push"] ["success"] ["main"] [["echo"; "hi"]] 5)).1.

Definition issueEvent : Event :=
  {[ "type" := VStr "issue"; "status" := VStr "failed"; "ref" := VStr "refs/heads/dev" ]}.

(** The first program of the unit is not on the search path. *)
Definition missingProgram : Hook :=
  (CreateTemplates world
     (newHook "/deploy" "" [] false [] [] []
        [["nosuchprogram"]; ["echo"; "hi"]] 5)).1.

End Sample.


(** ** More readers of a trace *)

(** The commands killed, in order. *)
Fixpoint kills (tr : Trace) : list (list string) :=
  match tr with
  | [] => []
  | EKill args :: rest => args :: kills rest
  | _ :: rest => kills rest
  end.

(** The environment and the directory each process was started with. *)
Fixpoint spawnSettings (tr : Trace) : list (list string * string) :=
  match tr with
  | [] => []
  | ESpawn _ env dir :: rest => (env, dir) :: spawnSettings rest
  | _ :: rest => spawnSettings rest
  end.

(** The templates rendered, in order. *)
Fixpoint rendered (tr : Trace) : list Template :=
  match tr with
  | [] => []
  | ERender t :: rest => t :: rendered rest
  | _ :: rest => rendered rest
  end.

(** The log lines, in order. *)
Fixpoint logged (tr : Trace) : list (Severity * LogMsg) :=
  match tr with
  | [] => []
  | ELog sev msg :: rest => (sev, msg) :: logged rest
  | _ :: rest => logged rest
  end.

(** ** What a unit renders *)

(** The text a compiled template gives for an event. *)
Definition textOf (w : World) (e : Event) (t : Template) : string :=
  (tmplExecute w t e).1.

(** A template renders without error. *)
Definition renders (w : World) (e : Event) (t : Template) : Prop :=
  (tmplExecute w t e).2 = None.

(** The strings of a list of compiled templates. *)
Definition textsOf (w : World) (e : Event) (ts : list (option Template)) : list string :=
  textOf w e <$> omap id ts.

(** The directory and the environment of a unit. *)
Definition unitDir (w : World) (hook : Hook) (e : Event) : string :=
  match dirTemplate hook with
  | Some t => textOf w e t
  | None => ""
  end.

Definition unitEnv (w : World) (hook : Hook) (e : Event) : list string :=
  textsOf w e (envTemplate hook).

(** The compiled templates of a hook, in the order a unit renders them: the
    directory, the environment, the arguments of the commands. *)
Definition unitTemplates (hook : Hook) : list Template :=
  match dirTemplate hook with Some t => [t] | None => [] end ++
  omap id (envTemplate hook) ++ omap id (concat (cmdTemplate hook)).

(** A command as it is started: the path found for the first rendered
    argument, then the other rendered arguments as they are. *)
Definition startedFrom (w : World) (e : Event) (found : list (string * Res string))
  (ts : list (option Template)) (cmd : list string) : Prop :=
  exists name path,
    head (textsOf w e ts) = Some name /\ (name, Val path) ∈ found /\
    cmd = path :: tail (textsOf w e ts).

(** ** The template sources of a hook, in the order they are compiled *)

Definition templateSources (hook : Hook) : list string :=
  concat (Commands hook) ++ Env hook ++
  (if String.eqb (Dir hook) "" then [] else [Dir hook]).

(** The error of the first source that does not compile. *)
Fixpoint firstError (w : World) (sources : list string) : option string :=
  match sources with
  | [] => None
  | source :: rest =>
      match createTemplate w source with
      | Fail err => Some err
      | Val _ => firstError w rest
      end
  end.

(** The configuration of a hook: every field but the compiled templates. *)
Definition sameConfiguration (h1 h2 : Hook) : Prop :=
  Url h1 = Url h2 /\ Dir h1 = Dir h2 /\ Env h1 = Env h2 /\
  PerCommit h1 = PerCommit h2 /\ AllowEvent h1 = AllowEvent h2 /\
  AllowPipelineStatus h1 = AllowPipelineStatus h2 /\
  AllowBranches h1 = AllowBranches h2 /\ Commands h1 = Commands h2 /\
  Timeout h1 = Timeout h2 /\ Secret h1 = Secret h2.

(** ** The HTTP boundary: hookHandler *)

(** What [hookHandler] reads of a [*http.Request]: the declared length (an
    [int64], -1 when unknown), the headers ([Header.Get] gives the empty
    string for a header that is absent), the bytes of the body, the path and
    the remote address. *)
Record Request : Type := mkRequest {
  ContentLength : Z;
  Header : gmap string string;
  Body : string;
  Path : string;
  RemoteAddr : string
}.

(** [r.Header.Get(key)] *)
Definition headerGet (r : Request) (key : string) : string :=
  default "" (Header r !! key).

Definition StatusForbidden : Z := 403.
Definition StatusRequestEntityTooLarge : Z := 413.

(** The glog lines of [hookHandler]. *)
Inductive HandlerLog : Type :=
| ReceivedData (path data : string)
| BadSecret (path addr secret : string)
| NoSecret (path addr : string)
| ParseError (path err : string).

(** What a call of [hookHandler] does: the status it writes ([None] when
    [WriteHeader] is not called, which the server answers with 200), its log
    lines, and the event it starts [go hook.Execute(event)] with, if any. *)
Record Response : Type := mkResponse {
  respStatus : option Z;
  respLogs : list (Severity * HandlerLog);
  respDispatched : option Event
}.

Section Boundary.

(** [NewEvent], the decoder of the payload (not among the sources), the
    value an [interface{}] holds for the [map[string]string] of the URL
    parameters, [json.Indent], and [glog.V(2)]. *)
Variable NewEvent : string -> string -> Res Event.
Variable paramsValue : gmap string string -> Value.
Variable jsonIndent : string -> string.
Variable verbose2 : bool.

Definition hookHandler (r : Request) (params : gmap string string) (hook : Hook)
  : Response :=
  let gitlabEventType := headerGet r "X-Gitlab-Event" in
  if 16384 <? ContentLength r then
    (* We should never get a request this large. *)
    mkResponse (Some StatusRequestEntityTooLarge) [] None
  else
    let buffer := Body r in
    let logs :=
      if verbose2 then [(Info, ReceivedData (Path r) (jsonIndent buffer))] else [] in
    let dispatch :=
      match NewEvent buffer gitlabEventType with
      | Fail err => mkResponse None (logs ++ [(Error, ParseError (Path r) err)]) None
      | Val event =>
          mkResponse None logs (Some (<["urlparams" := paramsValue params]> event))
      end in
    if negb (String.eqb (Secret hook) "") then
      if negb (String.eqb (headerGet r "X-Gitlab-Token") "") then
        let secret := headerGet r "X-Gitlab-Token" in
        if negb (String.eqb secret (Secret hook)) then
          mkResponse (Some StatusForbidden)
            (logs ++ [(Warning, BadSecret (Path r) (RemoteAddr r) secret)]) None
        else dispatch
      else
        mkResponse (Some StatusForbidden)
          (logs ++ [(Warning, NoSecret (Path r) (RemoteAddr r))]) None
    else dispatch.

End Boundary.

(** ** main: the configuration file and the hook paths (webhook.go) *)

(** [mainConfigPath] and [hooksStartIndex], from the environment variable
    [UNWEBHOOK_CONFFILE], the positional arguments and [os.Args[0]]. *)
Definition mainConfig (confFile : string) (args : list string) (argv0 : string)
  : string * nat :=
  if String.eqb confFile "" then
    match args with
    | arg0 :: _ => (arg0, 1%nat)
    | [] => (argv0 +:+ ".conf", 0%nat)
    end
  else (confFile, 0%nat).

(** The paths [AddHookPath] is called with, in order: those of the
    configuration, then the positional arguments from [hooksStartIndex] on. *)
Definition hookPaths (configHookPaths args : list string) (hooksStartIndex : nat)
  : list string :=
  configHookPaths ++
  (if (hooksStartIndex <? length args)%nat then drop hooksStartIndex args else []).

(** ** Samples for the boundary *)

Module SampleHttp.

(** A decoder for the examples: the body [{}] is the empty event, anything
    else is an error. *)
Definition NewEvent (body gitlabEventType : string) : Res Event :=
  if String.eqb body "{}" then Val ∅ else Fail "unexpected end of JSON input".

Definition paramsValue (params : gmap string string) : Value :=
  VMap (VStr <$> params).

Definition handler : Request -> gmap string string -> Hook -> Response :=
  hookHandler NewEvent paramsValue (fun s => s) false.

Definition request (length : Z) (token : option string) (body : string) : Request :=
  mkRequest length
    (match token with
     | Some t => {[ "X-Gitlab-Token" := t ]}
     | None => ∅
     end) body "/deploy" "10.0.0.1:4242".

Definition secretHook : Hook :=
  set_Secret (newHook "/deploy" "" [] false [] [] [] [["echo"; "hi"]] 5) "s3cret".

Definition optOutHook : Hook :=
  set_Secret (newHook "/deploy" "" [] false [] [] [] [["echo"; "hi"]] 0) "none".

End SampleHttp.

(** * Properties *)

(** ** Small facts on strings, lists and the timer *)

Lemma allowed_spec (l : list string) (x : string) :
  allowed l x = true <-> x ∈ l.
Proof.
  induction l as [|a l IH]; simpl.
  - split; [discriminate | intros H; inversion H].
  - destruct (String.eqb_spec a x) as [->|Hne].
    + split; [intros _; left | done].
    + rewrite IH. split; [right; done|].
      intros H. inversion H; subst; [congruence | done].
Qed.

Lemma allowed_false (l : list string) (x : string) :
  allowed l x = false <-> x ∉ l.
Proof.
  rewrite <- allowed_spec. destruct (allowed l x); split; try done.
Qed.

Lemma prefix_append (p s : string) : String.prefix p (p +:+ s) = true.
Proof.
  induction p as [|c p IH]; simpl; [by destruct s|].
  destruct (Ascii.ascii_dec c c); [exact IH | done].
Qed.

Lemma sliceFrom_append (p s : string) : sliceFrom (String.length p) (p +:+ s) = s.
Proof. induction p as [|c p IH]; simpl; [by destruct s | exact IH]. Qed.

Lemma append_empty_r (s : string) : s +:+ "" = s.
Proof.
  induction s as [|c s IH]; [done|].
  change (String c (s +:+ "") = String c s). by rewrite IH.
Qed.

Lemma append_assoc3 (a b c : string) : (a +:+ b) +:+ c = a +:+ (b +:+ c).
Proof.
  induction a as [|x a IH]; [done|].
  change (String x ((a +:+ b) +:+ c) = String x (a +:+ (b +:+ c))). by rewrite IH.
Qed.

Lemma stripRef_prefixed (s : string) : stripRef (prefixString +:+ s) = s.
Proof.
  unfold stripRef, HasPrefix. rewrite prefix_append. apply sliceFrom_append.
Qed.

Lemma stripRef_other (s : string) : HasPrefix s prefixString = false -> stripRef s = s.
Proof. unfold stripRef. by intros ->. Qed.

Lemma wrap64_in_range (z : Z) : - 2 ^ 63 <= z < 2 ^ 63 -> wrap64 z = z.
Proof. intros H. unfold wrap64. rewrite Z.mod_small; lia. Qed.

Lemma timerAt_seconds (hook : Hook) :
  0 <= Timeout hook <= 9223372036 -> timerAt hook = Timeout hook * 1000000000.
Proof.
  intros H. unfold timerAt, timerNanos. rewrite wrap64_in_range; lia.
Qed.

Lemma selectCase_done_first (d timer : Z) (b : bool) :
  d < timer -> selectCase (Some d) timer b = CaseDone.
Proof. intros H. unfold selectCase. by rewrite (proj2 (Z.ltb_lt _ _) H). Qed.

Lemma selectCase_timer_first (d timer : Z) (b : bool) :
  timer < d -> selectCase (Some d) timer b = CaseTimer.
Proof.
  intros H. unfold selectCase.
  rewrite (proj2 (Z.ltb_ge _ _)) by lia. by rewrite (proj2 (Z.ltb_lt _ _) H).
Qed.

(** ** The shape of the traces *)

Section Traces.

Variable w : World.

Lemma render_eq (t : option Template) (e : Event) (tr : Trace) :
  render w t e tr =
  match t with
  | None => (tr, Panic NilDereference)
  | Some t0 =>
      (tr ++ [ERender t0],
       match tmplExecute w t0 e with
       | (_, Some err) => Err err
       | (out, None) => Ok out
       end)
  end.
Proof.
  destruct t as [t0|]; [|done]. unfold render. unfold_go.
  by destruct (tmplExecute w t0 e) as [out [err|]].
Qed.

(** Rendering a list of templates leaves only render events, gives as many
    strings as there are templates, and panics on a nil template only. *)
Lemma processCommand_spec (e : Event) (ts : list (option Template)) (tr : Trace) :
  exists evs,
    (processCommand w e ts tr).1 = tr ++ evs /\
    Forall (fun ev => isRender ev = true) evs /\
    match (processCommand w e ts tr).2 with
    | Ok cmd => length cmd = length ts
    | Err _ => True
    | Panic p => p = NilDereference
    end.
Proof.
  revert tr. induction ts as [|t ts IH]; intros tr; simpl.
  - exists []. by rewrite app_nil_r.
  - unfold bind at 1 3. rewrite render_eq. destruct t as [t0|].
    + destruct (tmplExecute w t0 e) as [out [err|]].
      * exists [ERender t0]. repeat split; auto.
      * unfold bind. destruct (IH (tr ++ [ERender t0])) as (evs & Htr & Hev & Hr).
        destruct (processCommand w e ts (tr ++ [ERender t0])) as [tr' r].
        simpl in *. subst tr'. exists (ERender t0 :: evs).
        rewrite <- app_assoc. simpl.
        destruct r; simpl; repeat split; auto; simpl; lia.
    + exists []. by rewrite app_nil_r.
Qed.

Lemma renderEnv_processCommand (e : Event) (ts : list (option Template)) :
  renderEnv w e ts = processCommand w e ts.
Proof. induction ts as [|t ts IH]; simpl; [done | by rewrite IH]. Qed.

(** One round of the first loop of [processEvent]. *)
Lemma prepare_cons (e : Event) (ts : list (option Template))
  (tss : list (list (option Template))) (tr : Trace) :
  prepare w e (ts :: tss) tr =
  match processCommand w e ts tr with
  | (tr1, Ok []) => (tr1, Panic IndexOutOfRange)
  | (tr1, Ok (name :: args)) =>
      let tr2 := tr1 ++ [ELookPath name (lookPath w tr1 name)] in
      match lookPath w tr1 name with
      | Fail err => (tr2, Err ("Executable " +:+ name +:+ " " +:+ err))
      | Val execPath =>
          match prepare w e tss tr2 with
          | (tr3, Ok cmds) => (tr3, Ok ((execPath :: args) :: cmds))
          | (tr3, Err msg) => (tr3, Err msg)
          | (tr3, Panic p) => (tr3, Panic p)
          end
      end
  | (tr1, Err msg) => (tr1, Err msg)
  | (tr1, Panic p) => (tr1, Panic p)
  end.
Proof.
  simpl. unfold_go.
  destruct (processCommand w e ts tr) as [tr1 [[|name args]|msg|p]]; try done.
  destruct (lookPath w tr1 name) as [execPath|err]; [|done].
  by destruct (prepare w e tss (tr1 ++ [ELookPath name (Val execPath)])) as [tr3 [cmds|msg|p]].
Qed.

Lemma calls_app (a b : Trace) : calls (a ++ b) = calls a ++ calls b.
Proof.
  induction a as [|ev a IH]; simpl; [done|]. destruct ev; simpl; by rewrite ?IH.
Qed.

Lemma lookups_app (a b : Trace) : lookups (a ++ b) = lookups a ++ lookups b.
Proof.
  induction a as [|ev a IH]; simpl; [done|]. destruct ev; simpl; by rewrite ?IH.
Qed.

Lemma spawned_app (a b : Trace) : spawned (a ++ b) = spawned a ++ spawned b.
Proof.
  induction a as [|ev a IH]; simpl; [done|]. destruct ev; simpl; by rewrite ?IH.
Qed.

Lemma render_only (evs : Trace) :
  Forall (fun ev => isRender ev = true) evs ->
  Forall (fun ev => isPrep ev = true) evs /\ calls evs = [] /\
  lookups evs = [] /\ spawned evs = [].
Proof.
  induction 1 as [|ev l H _ (IH1 & IH2 & IH3 & IH4)]; [done|].
  destruct ev; try discriminate. repeat split; auto.
Qed.

(** The first loop of [processEvent]. *)
Lemma prepare_spec (e : Event) (tss : list (list (option Template))) (tr : Trace) :
  exists evs,
    (prepare w e tss tr).1 = tr ++ evs /\
    Forall (fun ev => isPrep ev = true) evs /\
    calls evs = [] /\ spawned evs = [] /\
    (forall f err, (f, Fail err) ∈ lookups evs ->
       (prepare w e tss tr).2 = Err ("Executable " +:+ f +:+ " " +:+ err)) /\
    match (prepare w e tss tr).2 with
    | Ok cmds =>
        length cmds = length tss /\ Forall (fun c => c <> []) cmds /\
        length (lookups evs) = length tss /\ Forall resolved (lookups evs)
    | Err _ => True
    | Panic p => p = IndexOutOfRange -> Exists (fun ts => ts = []) tss
    end.
Proof.
  revert tr. induction tss as [|ts tss IH]; intros tr.
  - exists []. simpl. rewrite app_nil_r. repeat split; auto.
    intros f err H. inversion H.
  - rewrite prepare_cons.
    destruct (processCommand_spec e ts tr) as (evs1 & Htr1 & Hev1 & Hr1).
    destruct (processCommand w e ts tr) as [tr1 r1]. simpl in Htr1, Hr1. subst tr1.
    destruct (render_only _ Hev1) as (Hprep1 & Hcalls1 & Hlook1 & Hsp1).
    destruct r1 as [[|name args]|msg|p].
    + exists evs1. simpl. rewrite Hlook1. repeat split; auto.
      * intros f err H. inversion H.
      * intros _. left. by destruct ts.
    + cbv zeta.
      destruct (lookPath w (tr ++ evs1) name) as [execPath|err] eqn:Hlp.
      * destruct (IH ((tr ++ evs1) ++ [ELookPath name (Val execPath)]))
          as (evs2 & Htr2 & Hev2 & Hcalls2 & Hsp2 & Hfail2 & Hr2).
        destruct (prepare w e tss ((tr ++ evs1) ++ [ELookPath name (Val execPath)]))
          as [tr2 r2]. simpl in Htr2, Hfail2, Hr2. subst tr2.
        exists (evs1 ++ ELookPath name (Val execPath) :: evs2).
        rewrite calls_app, lookups_app, spawned_app, Hcalls1, Hlook1, Hsp1. simpl.
        split; [|split; [|split; [|split; [|split]]]]; auto.
        -- destruct r2; simpl; by rewrite <- !app_assoc.
        -- apply Forall_app. split; [done|]. by constructor.
        -- intros f err H. apply elem_of_cons in H as [H|H]; [discriminate|].
           specialize (Hfail2 f err H). destruct r2; simpl in *; congruence.
        -- destruct r2 as [cmds|msg|p]; simpl; [|done|].
           ++ destruct Hr2 as (Hlen & Hne & Hll & Hres).
              repeat split; simpl; auto.
              constructor; [by exists execPath | done].
           ++ intros Hp. right. auto.
      * exists (evs1 ++ [ELookPath name (Fail err)]).
        rewrite calls_app, lookups_app, spawned_app, Hcalls1, Hlook1, Hsp1. simpl.
        split; [|split; [|split; [|split; [|split]]]]; auto.
        -- by rewrite <- app_assoc.
        -- apply Forall_app. split; [done|]. by constructor.
        -- intros f err' H. apply list_elem_of_singleton in H. congruence.
    + exists evs1. simpl. rewrite Hlook1. repeat split; auto.
      intros f err H. inversion H.
    + exists evs1. simpl. rewrite Hlook1. repeat split; auto.
      * intros f err H. inversion H.
      * intros ->. discriminate.
Qed.

(** [runCommand], with its trace written out. *)
Lemma runCommand_eq (hook : Hook) (args env : list string) (dir : string) (tr : Trace) :
  runCommand w hook args env dir tr =
  match args with
  | [] => (tr ++ [ELog Info (Running [])], Panic IndexOutOfRange)
  | _ :: _ =>
      let tr1 := tr ++ [ELog Info (Running args); ESpawn args env dir] in
      match selectCase (doneAt (child w tr1)) (timerAt hook) (tie w tr1) with
      | CaseDone => (tr1, Ok tt)
      | CaseTimer =>
          match child w tr1 with
          | StartFailed => (tr1, Panic NilDereference)
          | _ => (tr1 ++ [EKill args],
                  Err ("Command " +:+ fmtArgs args +:+ " timed out"))
          end
      end
  end.
Proof.
  unfold runCommand. unfold_go. destruct args as [|a args]; [done|].
  cbv zeta. rewrite <- !app_assoc. simpl.
  destruct (selectCase _ _ _); [done|].
  destruct (child w _); by rewrite <- ?app_assoc.
Qed.

Lemma runCommands_cons (hook : Hook) (cmd : list string) (cmds : list (list string))
  (env : list string) (dir : string) (tr : Trace) :
  runCommands w hook (cmd :: cmds) env dir tr =
  match runCommand w hook cmd env dir tr with
  | (tr1, Ok _) => runCommands w hook cmds env dir tr1
  | (tr1, Err msg) => (tr1, Err msg)
  | (tr1, Panic p) => (tr1, Panic p)
  end.
Proof. done. Qed.

(** One command: what it leaves in the trace, by the way it ends. *)
Lemma runCommand_spec (hook : Hook) (args env : list string) (dir : string) (tr : Trace) :
  exists evs,
    (runCommand w hook args env dir tr).1 = tr ++ evs /\
    Forall (fun ev => isRun ev = true) evs /\ calls evs = [] /\ lookups evs = [] /\
    match (runCommand w hook args env dir tr).2 with
    | Ok _ => evs = [ELog Info (Running args); ESpawn args env dir]
    | Err msg =>
        evs = [ELog Info (Running args); ESpawn args env dir; EKill args] /\
        msg = "Command " +:+ fmtArgs args +:+ " timed out"
    | Panic p => spawned evs = [] /\ args = [] \/ p = NilDereference
    end.
Proof.
  rewrite runCommand_eq. destruct args as [|a args].
  - eexists. split; [done|]. simpl. repeat split; auto.
  - cbv zeta. destruct (selectCase _ _ _).
    + eexists. split; [done|]. simpl. repeat split; auto.
    + destruct (child w _).
      * eexists. split; [done|]. simpl. repeat split; auto.
      * eexists. simpl. rewrite <- app_assoc. split; [done|]. simpl. repeat split; auto.
      * eexists. simpl. rewrite <- app_assoc. split; [done|]. simpl. repeat split; auto.
Qed.

(** The second loop of [processEvent]: the commands are started in order,
    and the loop stops at the first one that does not return nil. *)
Lemma runCommands_spec (hook : Hook) (cmds : list (list string))
  (env : list string) (dir : string) (tr : Trace) :
  exists evs,
    (runCommands w hook cmds env dir tr).1 = tr ++ evs /\
    Forall (fun ev => isRun ev = true) evs /\ calls evs = [] /\ lookups evs = [] /\
    match (runCommands w hook cmds env dir tr).2 with
    | Ok _ => spawned evs = cmds
    | Err msg =>
        exists evs0 pre args post,
          evs = evs0 ++ [ESpawn args env dir; EKill args] /\
          msg = "Command " +:+ fmtArgs args +:+ " timed out" /\
          cmds = pre ++ args :: post /\ spawned evs = pre ++ [args]
    | Panic p => p = IndexOutOfRange -> Exists (fun c => c = []) cmds
    end.
Proof.
  revert tr. induction cmds as [|cmd cmds IH]; intros tr.
  - exists []. simpl. rewrite app_nil_r. repeat split; auto.
  - rewrite runCommands_cons.
    destruct (runCommand_spec hook cmd env dir tr) as (evs1 & Htr1 & Hev1 & Hc1 & Hl1 & Hr1).
    destruct (runCommand w hook cmd env dir tr) as [tr1 r1]. simpl in Htr1, Hr1. subst tr1.
    destruct r1 as [[]|msg|p].
    + destruct (IH (tr ++ evs1)) as (evs2 & Htr2 & Hev2 & Hc2 & Hl2 & Hr2).
      destruct (runCommands w hook cmds env dir (tr ++ evs1)) as [tr2 r2].
      simpl in Htr2, Hr2. subst tr2. exists (evs1 ++ evs2).
      rewrite calls_app, lookups_app, Hc1, Hl1, Hc2, Hl2, app_assoc.
      split; [done|]. split; [by apply Forall_app|]. split; [done|]. split; [done|].
      subst evs1. simpl. destruct r2 as [[]|msg|p].
      * by rewrite Hr2.
      * destruct Hr2 as (evs0 & pre & args & post & -> & -> & -> & Hsp).
        exists ([ELog Info (Running cmd); ESpawn cmd env dir] ++ evs0), (cmd :: pre), args, post.
        repeat split; auto. simpl. by rewrite Hsp.
      * intros Hp. right. auto.
    + destruct Hr1 as [-> ->].
      eexists. split; [done|]. repeat split; auto.
      exists [ELog Info (Running cmd)], [], cmd, cmds. repeat split; auto.
    + eexists. split; [done|]. repeat split; auto.
      intros ->. destruct Hr1 as [[_ ->]|]; [by left | discriminate].
Qed.

Lemma processEvent_eq (hook : Hook) (e : Event) (tr : Trace) :
  processEvent w hook e tr =
  match renderDir w hook e (tr ++ [EProcessEvent e]) with
  | (tr1, Ok dir) =>
      match processCommand w e (envTemplate hook) tr1 with
      | (tr2, Ok env) =>
          match prepare w e (cmdTemplate hook) tr2 with
          | (tr3, Ok cmds) => runCommands w hook cmds env dir tr3
          | (tr3, Err msg) => (tr3, Err msg)
          | (tr3, Panic p) => (tr3, Panic p)
          end
      | (tr2, Err msg) => (tr2, Err msg)
      | (tr2, Panic p) => (tr2, Panic p)
      end
  | (tr1, Err msg) => (tr1, Err msg)
  | (tr1, Panic p) => (tr1, Panic p)
  end.
Proof.
  unfold processEvent. rewrite renderEnv_processCommand.
  unfold bind, emit.
  destruct (renderDir w hook e (tr ++ [EProcessEvent e])) as [tr1 [dir|msg|p]]; [|done..].
  destruct (processCommand w e (envTemplate hook) tr1) as [tr2 [env|msg|p]]; [|done..].
  by destruct (prepare w e (cmdTemplate hook) tr2) as [tr3 [cmds|msg|p]].
Qed.

Lemma renderDir_spec (hook : Hook) (e : Event) (tr : Trace) :
  exists evs,
    (renderDir w hook e tr).1 = tr ++ evs /\
    Forall (fun ev => isRender ev = true) evs /\
    match (renderDir w hook e tr).2 with
    | Panic p => p = NilDereference
    | _ => True
    end.
Proof.
  unfold renderDir. destruct (dirTemplate hook) as [t|].
  - rewrite render_eq. exists [ERender t]. split; [done|].
    split; [by repeat constructor|].
    by destruct (tmplExecute w t e) as [out [err|]].
  - exists []. simpl. by rewrite app_nil_r.
Qed.

(** One unit: the trace it leaves is a preparing part followed by an
    executing part. *)
Lemma processEvent_spec (hook : Hook) (e : Event) (tr : Trace) :
  exists pre run,
    (processEvent w hook e tr).1 = tr ++ pre ++ run /\
    Forall (fun ev => isPrep ev = true) pre /\
    Forall (fun ev => isRun ev = true) run /\
    calls pre = [e] /\ calls run = [] /\ spawned pre = [] /\ lookups run = [] /\
    (forall f err, (f, Fail err) ∈ lookups pre ->
       run = [] /\
       (processEvent w hook e tr).2 = Err ("Executable " +:+ f +:+ " " +:+ err)) /\
    (run <> [] ->
       length (lookups pre) = length (cmdTemplate hook) /\
       Forall resolved (lookups pre)) /\
    match (processEvent w hook e tr).2 with
    | Ok _ => length (spawned run) = length (cmdTemplate hook)
    | Err msg =>
        run = [] \/
        exists evs0 args env dir,
          run = evs0 ++ [ESpawn args env dir; EKill args] /\
          msg = "Command " +:+ fmtArgs args +:+ " timed out"
    | Panic p => p = IndexOutOfRange -> Exists (fun ts => ts = []) (cmdTemplate hook)
    end.
Proof.
  rewrite processEvent_eq.
  destruct (renderDir_spec hook e (tr ++ [EProcessEvent e])) as (evs1 & Htr1 & Hev1 & Hr1).
  destruct (renderDir w hook e (tr ++ [EProcessEvent e])) as [tr1 r1].
  simpl in Htr1, Hr1. subst tr1. rewrite <- app_assoc. simpl.
  destruct (render_only _ Hev1) as (Hprep1 & Hcalls1 & Hlook1 & Hsp1).
  assert (Hnil : forall x : string * Res string, x ∈ @nil (string * Res string) -> False)
    by (intros x Hx; inversion Hx).
  destruct r1 as [dir|msg|p].
  2:{ exists (EProcessEvent e :: evs1), []. simpl. rewrite app_nil_r, Hcalls1, Hlook1.
      split_and!; auto; try done. intros f err H. by apply Hnil in H. }
  2:{ exists (EProcessEvent e :: evs1), []. simpl. rewrite app_nil_r, Hcalls1, Hlook1.
      split_and!; auto; try done.
      - intros f err H. by apply Hnil in H.
      - by subst p. }
  destruct (processCommand_spec e (envTemplate hook) (tr ++ EProcessEvent e :: evs1))
    as (evs2 & Htr2 & Hev2 & Hr2).
  destruct (processCommand w e (envTemplate hook) (tr ++ EProcessEvent e :: evs1))
    as [tr2 r2]. simpl in Htr2, Hr2. subst tr2.
  destruct (render_only _ Hev2) as (Hprep2 & Hcalls2 & Hlook2 & Hsp2).
  destruct r2 as [env|msg|p].
  2:{ exists (EProcessEvent e :: evs1 ++ evs2), []. simpl.
      rewrite app_nil_r, calls_app, lookups_app, spawned_app, Hcalls1, Hlook1, Hsp1,
        Hcalls2, Hlook2, Hsp2, <- app_assoc.
      split_and!; auto; try done.
      - constructor; [done | by apply Forall_app].
      - intros f err H. by apply Hnil in H. }
  2:{ exists (EProcessEvent e :: evs1 ++ evs2), []. simpl.
      rewrite app_nil_r, calls_app, lookups_app, spawned_app, Hcalls1, Hlook1, Hsp1,
        Hcalls2, Hlook2, Hsp2, <- app_assoc.
      split_and!; auto; try done.
      - constructor; [done | by apply Forall_app].
      - intros f err H. by apply Hnil in H.
      - by subst p. }
  destruct (prepare_spec e (cmdTemplate hook) ((tr ++ EProcessEvent e :: evs1) ++ evs2))
    as (evs3 & Htr3 & Hev3 & Hcalls3 & Hsp3 & Hfail3 & Hr3).
  destruct (prepare w e (cmdTemplate hook) ((tr ++ EProcessEvent e :: evs1) ++ evs2))
    as [tr3 r3]. simpl in Htr3, Hfail3, Hr3. subst tr3.
  assert (Hpre : Forall (fun ev => isPrep ev = true) (EProcessEvent e :: evs1 ++ evs2 ++ evs3)).
  { constructor; [done|]. apply Forall_app; split; [done|]. by apply Forall_app. }
  assert (Htr : ((tr ++ EProcessEvent e :: evs1) ++ evs2) ++ evs3
                = tr ++ EProcessEvent e :: evs1 ++ evs2 ++ evs3).
  { by rewrite <- !app_assoc. }
  rewrite Htr. clear Htr.
  destruct r3 as [cmds|msg|p].
  2:{ exists (EProcessEvent e :: evs1 ++ evs2 ++ evs3), []. simpl.
      rewrite app_nil_r, !calls_app, !lookups_app, !spawned_app, Hcalls1, Hlook1, Hsp1,
        Hcalls2, Hlook2, Hsp2, Hcalls3, Hsp3.
      split_and!; auto; try done.
      intros f err H. split; [done|]. specialize (Hfail3 f err H). by inversion Hfail3. }
  2:{ exists (EProcessEvent e :: evs1 ++ evs2 ++ evs3), []. simpl.
      rewrite app_nil_r, !calls_app, !lookups_app, !spawned_app, Hcalls1, Hlook1, Hsp1,
        Hcalls2, Hlook2, Hsp2, Hcalls3, Hsp3.
      split_and!; auto; try done.
      intros f err H. by specialize (Hfail3 f err H). }
  destruct Hr3 as (Hlen3 & Hne3 & Hll3 & Hres3).
  destruct (runCommands_spec hook cmds env dir (tr ++ EProcessEvent e :: evs1 ++ evs2 ++ evs3))
    as (evs4 & Htr4 & Hev4 & Hcalls4 & Hlook4 & Hr4).
  destruct (runCommands w hook cmds env dir (tr ++ EProcessEvent e :: evs1 ++ evs2 ++ evs3))
    as [tr4 r4]. simpl in Htr4, Hr4. subst tr4.
  exists (EProcessEvent e :: evs1 ++ evs2 ++ evs3), evs4. simpl.
  rewrite !calls_app, !lookups_app, !spawned_app, Hcalls1, Hlook1, Hsp1,
    Hcalls2, Hlook2, Hsp2, Hcalls3, Hsp3. simpl.
  split; [by rewrite <- app_assoc|].
  split_and!; auto.
  - intros f err H. by specialize (Hfail3 f err H).
  - destruct r4 as [[]|msg|p].
    + by rewrite Hr4.
    + destruct Hr4 as (evs0 & pre & args & post & -> & -> & _ & _).
      right. by exists evs0, args, env, dir.
    + intros Hp. specialize (Hr4 Hp). exfalso.
      apply Exists_exists in Hr4 as (c & Hin & ->).
      rewrite Forall_forall in Hne3. by apply (Hne3 [] Hin).
Qed.

Lemma processAndLog_eq (hook : Hook) (e : Event) (tr : Trace) :
  processAndLog w hook e tr =
  match processEvent w hook e tr with
  | (tr', Err err) =>
      (tr' ++ ELog Error (ErrorProcessing (Url hook) err)
           :: (if verbose w then [ELog Info (DumpEvent e)] else []),
       Ok tt)
  | r => r
  end.
Proof.
  unfold processAndLog. unfold_go.
  destruct (processEvent w hook e tr) as [tr' [[]|err|p]]; try done.
  destruct (verbose w); [|done]. by rewrite <- app_assoc.
Qed.

(** A unit under [Execute]: its error, if any, is logged and dropped. *)
Lemma processAndLog_spec (hook : Hook) (e : Event) (tr : Trace) :
  exists evs,
    (processAndLog w hook e tr).1 = tr ++ evs /\
    calls evs = [e] /\
    match (processAndLog w hook e tr).2 with
    | Ok _ => True
    | Err _ => False
    | Panic p => (processEvent w hook e tr).2 = Panic p
    end.
Proof.
  rewrite processAndLog_eq.
  destruct (processEvent_spec hook e tr)
    as (pre & run & Htr & _ & _ & Hc1 & Hc2 & _).
  destruct (processEvent w hook e tr) as [tr' r]. simpl in Htr. subst tr'.
  destruct r as [[]|err|p]; simpl.
  - exists (pre ++ run). by rewrite calls_app, Hc1, Hc2.
  - eexists. rewrite <- !app_assoc. split; [done|].
    rewrite !calls_app, Hc1, Hc2. by destruct (verbose w).
  - exists (pre ++ run). by rewrite calls_app, Hc1, Hc2.
Qed.

Lemma withCommit_twice (e c1 c2 : Event) :
  withCommit (withCommit e c1) c2 = withCommit e c2.
Proof. unfold withCommit. apply insert_insert_eq. Qed.

(** The per-commit loop: the units are entered once per mapping record, in
    the order of the list, each with the event map holding that record
    under [commit]; only a panic ends the loop early; the event map ends
    holding the record injected last. *)
Lemma perCommit_spec (hook : Hook) (commits : list Value) (e : Event) (tr : Trace) :
  exists evs n,
    (perCommit w hook commits e tr).2.1 = tr ++ evs /\
    calls evs = withCommit e <$> take n (omap asMap commits) /\
    (perCommit w hook commits e tr).1 = default e (last (calls evs)) /\
    match (perCommit w hook commits e tr).2.2 with
    | Ok _ => n = length (omap asMap commits)
    | Err _ => False
    | Panic _ => (0 < n <= length (omap asMap commits))%nat
    end.
Proof.
  revert e tr. induction commits as [|generic rest IH]; intros e tr.
  - exists [], 0%nat. simpl. by rewrite app_nil_r.
  - cbn [perCommit]. destruct (asMap generic) as [c|] eqn:Hc.
    + assert (Hom : omap asMap (generic :: rest) = c :: omap asMap rest).
      { change (omap asMap (generic :: rest))
          with (match asMap generic with
                | Some y => y :: omap asMap rest
                | None => omap asMap rest
                end). by rewrite Hc. }
      rewrite Hom. clear Hom. fold (withCommit e c).
      destruct (processAndLog_spec hook (withCommit e c) tr) as (evs1 & Htr1 & Hc1 & Hr1).
      destruct (processAndLog w hook (withCommit e c) tr) as [tr1 r1].
      simpl in Htr1, Hr1. subst tr1.
      destruct r1 as [[]|err|p]; [|done|].
      * destruct (IH (withCommit e c) (tr ++ evs1)) as (evs2 & n & Htr2 & Hc2 & He2 & Hr2).
        destruct (perCommit w hook rest (withCommit e c) (tr ++ evs1)) as [e2 [tr2 r2]].
        cbn [fst snd] in *. subst tr2. exists (evs1 ++ evs2), (S n).
        rewrite app_assoc, calls_app, Hc1, Hc2. cbn [take length app fmap list_fmap].
        split; [done|]. split.
        { f_equal. apply list_fmap_ext. intros i x _. apply withCommit_twice. }
        split.
        { rewrite He2, Hc2.
          destruct (take n (omap asMap rest)) as [|m l]; [done|].
          cbn [fmap list_fmap]. rewrite !last_cons.
          match goal with |- context [last ?x] => by destruct (last x) end. }
        destruct r2; [by f_equal | done | lia].
      * exists evs1, 1%nat. cbn [fst snd take length fmap list_fmap].
        rewrite Hc1. cbn. split_and!; auto; lia.
    + assert (Hom : omap asMap (generic :: rest) = omap asMap rest).
      { change (omap asMap (generic :: rest))
          with (match asMap generic with
                | Some y => y :: omap asMap rest
                | None => omap asMap rest
                end). by rewrite Hc. }
      rewrite Hom. clear Hom.
      destruct (IH e (tr ++ [ELog Error (CommitHadType generic)]))
        as (evs2 & n & Htr2 & Hc2 & He2 & Hr2).
      destruct (perCommit w hook rest e (tr ++ [ELog Error (CommitHadType generic)]))
        as [e2 [tr2 r2]].
      cbn [fst snd] in *. subst tr2. exists (ELog Error (CommitHadType generic) :: evs2), n.
      cbn [calls]. by rewrite <- app_assoc.
Qed.

End Traces.

(** ** The filters *)

Lemma rejectedBy_spec (l : list string) (field : option Value) :
  l <> [] ->
  rejectedBy l field <->
  match asString field with
  | None => True
  | Some s => allowed l s = false
  end.
Proof.
  intros Hl. unfold rejectedBy. split.
  - intros [_ H]. destruct field as [[]|]; simpl; auto.
    apply allowed_false. by apply H.
  - intros H. split; [done|]. intros s ->. simpl in H. by apply allowed_false.
Qed.

Lemma branchRejected_spec (l : list string) (field : option Value) :
  l <> [] ->
  branchRejected l field <->
  match asString field with
  | None => True
  | Some s => allowed l (stripRef s) = false
  end.
Proof.
  intros Hl. unfold branchRejected. split.
  - intros [_ H]. destruct field as [[]|]; simpl; auto.
    apply allowed_false. by apply H.
  - intros H. split; [done|]. intros s ->. simpl in H. by apply allowed_false.
Qed.

Lemma checkEventType_rejects (hook : Hook) (e : Event) :
  rejectedBy (AllowEvent hook) (e !! "type") <->
  exists sev msg, checkEventType hook e = Some (sev, msg).
Proof.
  unfold checkEventType. destruct (AllowEvent hook) as [|a l] eqn:Hl.
  - split; [by intros [? _] | by intros (? & ? & ?)].
  - rewrite rejectedBy_spec by done.
    destruct (asString (e !! "type")) as [s|]; [|by split; eauto].
    destruct (allowed (a :: l) s); split; eauto; try done. by intros (? & ? & ?).
Qed.

(** The event-type filter logs its rejections as warnings. *)
Lemma checkEventType_warning (hook : Hook) (e : Event) (sev : Severity) (msg : LogMsg) :
  checkEventType hook e = Some (sev, msg) -> sev = Warning.
Proof.
  unfold checkEventType. destruct (AllowEvent hook); [done|].
  destruct (asString (e !! "type")); [|congruence].
  destruct (allowed _ _); congruence.
Qed.

Lemma checkPipelineStatus_rejects (hook : Hook) (e : Event) :
  rejectedBy (AllowPipelineStatus hook) (e !! "status") <->
  exists sev msg, checkPipelineStatus hook e = Some (sev, msg).
Proof.
  unfold checkPipelineStatus. destruct (AllowPipelineStatus hook) as [|a l] eqn:Hl.
  - split; [by intros [? _] | by intros (? & ? & ?)].
  - rewrite rejectedBy_spec by done.
    destruct (asString (e !! "status")) as [s|]; [|by split; eauto].
    destruct (allowed (a :: l) s); split; eauto; try done. by intros (? & ? & ?).
Qed.

Lemma checkBranch_rejects (hook : Hook) (e : Event) :
  branchRejected (AllowBranches hook) (e !! "ref") <->
  exists sev msg, checkBranch hook e = Some (sev, msg).
Proof.
  unfold checkBranch. destruct (AllowBranches hook) as [|a l] eqn:Hl.
  - split; [by intros [? _] | by intros (? & ? & ?)].
  - rewrite branchRejected_spec by done.
    destruct (asString (e !! "ref")) as [s|]; [|by split; eauto].
    destruct (allowed (a :: l) (stripRef s)); split; eauto; try done. by intros (? & ? & ?).
Qed.

(** An accepted event goes to the dispatch part of [Execute] as it is. *)
Lemma Execute_accepts (w : World) (hook : Hook) (e : Event) (tr : Trace) :
  accepts hook e -> Execute w hook e tr = dispatch w hook e tr.
Proof.
  intros (H1 & H2 & H3). unfold Execute.
  assert (E1 : checkEventType hook e = None).
  { destruct (checkEventType hook e) as [[sev msg]|] eqn:E; [|done].
    destruct H1. apply checkEventType_rejects. eauto. }
  assert (E2 : checkPipelineStatus hook e = None).
  { destruct (checkPipelineStatus hook e) as [[sev msg]|] eqn:E; [|done].
    destruct H2. apply checkPipelineStatus_rejects. eauto. }
  assert (E3 : checkBranch hook e = None).
  { destruct (checkBranch hook e) as [[sev msg]|] eqn:E; [|done].
    destruct H3. apply checkBranch_rejects. eauto. }
  by rewrite E1, E2, E3.
Qed.

(** ** The claims *)

(** *** Filtering *)

(** C6.  A hook with a non-empty event-type allow-list rejects an event whose
    [type] is absent, is not a string, or is a string that is not listed: the
    call leaves one warning in the trace and nothing else (no template is
    rendered, no path looked up, no process started), and the event map is
    untouched.  When [type] is a listed string the event-type filter lets
    the event through, and the call goes on with the other filters.  The
    filters are tried in the order event type, pipeline status, branch: a
    rejection by the pipeline status is what the call ends with once the
    event type passes, whatever the branch filter would say, a rejection by
    the branch is what it ends with once the two others pass, and an event
    that passes all three is dispatched. *)
Theorem C6_filters_in_order (w : World) (hook : Hook) (e : Event) (tr : Trace) :
  (rejectedBy (AllowEvent hook) (e !! "type") ->
     exists msg,
       (msg = NonStringEventType \/
        exists s, e !! "type" = Some (VStr s) /\ msg = DisallowedEventType (Url hook) s) /\
       Execute w hook e tr = (e, (tr ++ [ELog Warning msg], Ok tt))) /\
  (forall s, e !! "type" = Some (VStr s) -> s ∈ AllowEvent hook ->
     ~ rejectedBy (AllowEvent hook) (e !! "type")) /\
  (~ rejectedBy (AllowEvent hook) (e !! "type") ->
   rejectedBy (AllowPipelineStatus hook) (e !! "status") ->
     exists sev msg,
       (sev = Warning /\ msg = NonStringPipelineStatus \/
        exists s, e !! "status" = Some (VStr s) /\
                  sev = Info /\ msg = IncorrectPipelineStatus (Url hook) s) /\
       Execute w hook e tr = (e, (tr ++ [ELog sev msg], Ok tt))) /\
  (~ rejectedBy (AllowEvent hook) (e !! "type") ->
   ~ rejectedBy (AllowPipelineStatus hook) (e !! "status") ->
   branchRejected (AllowBranches hook) (e !! "ref") ->
     exists sev msg,
       (sev = Warning /\ msg = NonStringRef \/
        exists s, e !! "ref" = Some (VStr s) /\
                  sev = Info /\ msg = IgnoredBranch (Url hook) (stripRef s)) /\
       Execute w hook e tr = (e, (tr ++ [ELog sev msg], Ok tt))) /\
  (accepts hook e -> Execute w hook e tr = dispatch w hook e tr).
Proof.
  assert (Hty : ~ rejectedBy (AllowEvent hook) (e !! "type") ->
                checkEventType hook e = None).
  { intros H. destruct (checkEventType hook e) as [[sev msg]|] eqn:E; [|done].
    destruct H. apply checkEventType_rejects. eauto. }
  assert (Hst : ~ rejectedBy (AllowPipelineStatus hook) (e !! "status") ->
                checkPipelineStatus hook e = None).
  { intros H. destruct (checkPipelineStatus hook e) as [[sev msg]|] eqn:E; [|done].
    destruct H. apply checkPipelineStatus_rejects. eauto. }
  split_and!.
  - intros [Hne H]. unfold Execute, checkEventType.
    destruct (AllowEvent hook) as [|a l] eqn:Hl; [done|].
    destruct (e !! "type") as [v|] eqn:Hv.
    + destruct v; cbn [asString]; try (eexists; split; [by left | done]).
      rewrite (proj2 (allowed_false _ _) (H s eq_refl)).
      eexists. split; [right; eauto | done].
    + simpl. eexists. split; [by left | done].
  - intros s Hs Hin [_ H]. by apply (H s Hs).
  - intros H1 [Hne H]. unfold Execute. rewrite (Hty H1). unfold checkPipelineStatus.
    destruct (AllowPipelineStatus hook) as [|a l] eqn:Hl; [done|].
    destruct (e !! "status") as [v|] eqn:Hv.
    + destruct v; cbn [asString]; try (do 2 eexists; split; [by left | done]).
      rewrite (proj2 (allowed_false _ _) (H s eq_refl)).
      do 2 eexists. split; [right; eauto | done].
    + simpl. do 2 eexists. split; [by left | done].
  - intros H1 H2 [Hne H]. unfold Execute. rewrite (Hty H1), (Hst H2). unfold checkBranch.
    destruct (AllowBranches hook) as [|a l] eqn:Hl; [done|].
    destruct (e !! "ref") as [v|] eqn:Hv.
    + destruct v; cbn [asString]; try (do 2 eexists; split; [by left | done]).
      rewrite (proj2 (allowed_false _ _) (H s eq_refl)).
      do 2 eexists. split; [right; eauto | done].
    + simpl. do 2 eexists. split; [by left | done].
  - apply Execute_accepts.
Qed.

Lemma C6_filters_in_order_witness :
  rejectedBy (AllowEvent Sample.onlyPush) (Sample.issueEvent !! "type") /\
  exists msg,
    (msg = NonStringEventType \/
     exists s, Sample.issueEvent !! "type" = Some (VStr s) /\
               msg = DisallowedEventType (Url Sample.onlyPush) s) /\
    Execute Sample.world Sample.onlyPush Sample.issueEvent [] =
    (Sample.issueEvent, ([] ++ [ELog Warning msg], Ok tt)).
Proof.
  assert (H : rejectedBy (AllowEvent Sample.onlyPush) (Sample.issueEvent !! "type")).
  { split; [by vm_compute|]. intros s Hs. vm_compute in Hs. injection Hs as <-.
    apply allowed_false. reflexivity. }
  split; [exact H|].
  exact (proj1 (C6_filters_in_order Sample.world Sample.onlyPush Sample.issueEvent []) H).
Defined.

(** C7.  The branch filter compares the [ref] string with one leading
    [refs/heads/] taken off, by exact equality: [refs/heads/main] and [main]
    both match the list [main], [refs/heads/feature/x] does not match the
    list [feature], and only one prefix is taken off.  The stripped string is
    local to the filter: an accepted event is handed to the unit as it is, so
    a template that prints [ref] writes the field as it came in. *)
Theorem C7_branch_prefix_stripped_for_filter_only :
  (forall (hook : Hook) (e : Event) (ref : string),
     AllowBranches hook <> [] -> e !! "ref" = Some (VStr ref) ->
     (checkBranch hook e = None <-> stripRef ref ∈ AllowBranches hook)) /\
  (forall s, stripRef (prefixString +:+ s) = s) /\
  (forall s, HasPrefix s prefixString = false -> stripRef s = s) /\
  stripRef "refs/heads/main" = "main" /\
  stripRef "main" = "main" /\
  stripRef "refs/heads/feature/x" = "feature/x" /\
  allowed ["feature"] (stripRef "refs/heads/feature/x") = false /\
  stripRef "refs/heads/refs/heads/main" = "refs/heads/main" /\
  (forall (w : World) (hook : Hook) (e : Event) (tr : Trace),
     PerCommit hook = false -> accepts hook e ->
     Execute w hook e tr = (e, processAndLog w hook e tr) /\
     calls (drop (length tr) (processAndLog w hook e tr).1) = [e]) /\
  (forall (w : World) (e : Event) (ref : string),
     e !! "ref" = Some (VStr ref) ->
     tmplExecute w [NPrint (Field "ref")] e = (ref, None)) /\
  (Execute Sample.world Sample.echoRef Sample.pushMain []).2 =
    ([EProcessEvent Sample.pushMain;
      ERender [NText "echo"]; ERender [NPrint (Field "ref")];
      ELookPath "echo" (Val "/bin/echo");
      ELog Info (Running ["/bin/echo"; "refs/heads/main"]);
      ESpawn ["/bin/echo"; "refs/heads/main"] [] ""], Ok tt).
Proof.
  split_and!.
  - intros hook e ref Hne Href. unfold checkBranch.
    destruct (AllowBranches hook) as [|a l]; [done|].
    rewrite Href. cbn [asString]. rewrite <- allowed_spec.
    by destruct (allowed (a :: l) (stripRef ref)).
  - apply stripRef_prefixed.
  - apply stripRef_other.
  - reflexivity.
  - reflexivity.
  - reflexivity.
  - reflexivity.
  - reflexivity.
  - intros w hook e tr Hpc Hacc. rewrite Execute_accepts by done.
    unfold dispatch. rewrite Hpc. split; [done|].
    destruct (processAndLog_spec w hook e tr) as (evs & Htr & Hc & _).
    rewrite Htr. by rewrite drop_app_length.
  - intros w e ref Href. simpl. rewrite Href. by rewrite append_empty_r.
  - vm_compute. reflexivity.
Qed.

Lemma C7_branch_prefix_stripped_for_filter_only_witness :
  checkBranch Sample.echoRef Sample.pushMain = None /\
  Execute Sample.world Sample.echoRef Sample.pushMain [] =
    (Sample.pushMain, processAndLog Sample.world Sample.echoRef Sample.pushMain []) /\
  tmplExecute Sample.world [NPrint (Field "ref")] Sample.pushMain =
    ("refs/heads/main", None).
Proof.
  destruct C7_branch_prefix_stripped_for_filter_only
    as (H1 & _ & _ & _ & _ & _ & _ & _ & H9 & H10 & _).
  split_and!.
  - apply (H1 Sample.echoRef Sample.pushMain "refs/heads/main");
      [by vm_compute | reflexivity |].
    vm_compute. left.
  - apply (H9 Sample.world Sample.echoRef Sample.pushMain []); [reflexivity|].
    split_and!.
    + by intros [H _].
    + by intros [H _].
    + intros [_ H]. apply (H "refs/heads/main"); [reflexivity|].
      vm_compute. left.
  - apply (H10 Sample.world Sample.pushMain "refs/heads/main"). reflexivity.
Defined.

(** *** Rendering *)

Lemma tmplExecute_app (w : World) (pre post : Template) (e : Event) :
  tmplExecute w (pre ++ post) e =
  match tmplExecute w pre e with
  | (out, Some err) => (out, Some err)
  | (out, None) => let '(out', r) := tmplExecute w post e in (out +:+ out', r)
  end.
Proof.
  induction pre as [|n pre IH]; simpl.
  - by destruct (tmplExecute w post e).
  - destruct (execNode w n e) as [s [err|]]; [done|]. rewrite IH.
    destruct (tmplExecute w pre e) as [out [err|]]; [done|].
    destruct (tmplExecute w post e) as [out' r]. by rewrite append_assoc3.
Qed.

(** C8, as the code has it.  When [json.Marshal] fails on the value the
    [json] template function is applied to, the function returns the text of
    the error between [<<] and [>>]; it has no error result.  The action
    writes that text, the rendering goes on with the nodes after it, and a
    template made of that action alone renders successfully to that text. *)
Theorem C8_json_failure_renders_placeholder (w : World) (a : Arg) (e : Event)
  (v : Value) (err : string) :
  evalArg e a = Some v -> marshal w v = Fail err ->
  templateFuncs_json w v = "<< " +:+ err +:+ " >>" /\
  execNode w (NJson a) e = ("<< " +:+ err +:+ " >>", None) /\
  (forall tr,
     render w (Some [NJson a]) e tr =
     (tr ++ [ERender [NJson a]], Ok ("<< " +:+ err +:+ " >>"))) /\
  (forall pre post out,
     tmplExecute w pre e = (out, None) ->
     tmplExecute w (pre ++ NJson a :: post) e =
     let '(out', r) := tmplExecute w post e in
     (out +:+ ("<< " +:+ err +:+ " >>") +:+ out', r)).
Proof.
  intros Hv Hm.
  assert (H1 : templateFuncs_json w v = "<< " +:+ err +:+ " >>").
  { unfold templateFuncs_json. by rewrite Hm. }
  assert (H2 : execNode w (NJson a) e = ("<< " +:+ err +:+ " >>", None)).
  { simpl. by rewrite Hv, <- H1. }
  split_and!; auto.
  - intros tr. rewrite render_eq. cbn [tmplExecute]. rewrite H2.
    by rewrite append_empty_r.
  - intros pre post out Hpre. rewrite tmplExecute_app, Hpre.
    cbn [tmplExecute]. rewrite H2. by destruct (tmplExecute w post e).
Qed.

Lemma C8_json_failure_renders_placeholder_witness :
  render Sample.world (Some [NJson (Field "payload")]) Sample.chanPayload [] =
  ([] ++ [ERender [NJson (Field "payload")]],
   Ok ("<< " +:+ "json: unsupported type: chan int" +:+ " >>")).
Proof.
  apply (C8_json_failure_renders_placeholder Sample.world (Field "payload")
           Sample.chanPayload (VOpaque "chan int") "json: unsupported type: chan int");
    reflexivity.
Defined.

(** C8 as stated fails: in the sample world [json.Marshal] fails on a channel,
    and the template [{{json .payload}}] still renders, to the placeholder
    text, without a render error. *)
Lemma C8_counterexample :
  ~ (forall (w : World) (a : Arg) (e : Event) (v : Value) (err : string) (tr : Trace),
       evalArg e a = Some v -> marshal w v = Fail err ->
       exists msg, (render w (Some [NJson a]) e tr).2 = Err msg).
Proof.
  intros H.
  destruct (H Sample.world (Field "payload") Sample.chanPayload (VOpaque "chan int")
              "json: unsupported type: chan int" [] eq_refl eq_refl) as [msg Hmsg].
  vm_compute in Hmsg. discriminate.
Qed.

(** *** One command *)

(** C5, as the code has it.  A started command ends in exactly one of two
    ways.  If the child exits before the timer fires, [runCommand] returns
    nil, whatever the exit status, and nothing is killed.  If the timer fires
    first (the child exits later, or never), the child is killed and the
    error names the command.  A start that fails is not reported either:
    [runCommand] returns nil.  In every case one start was made: there is no
    second attempt.  The timer runs for [Timeout] seconds, as long as
    that many nanoseconds fit in 64 bits. *)
Theorem C5_exit_or_timeout (w : World) (hook : Hook) (args env : list string)
  (dir : string) (tr : Trace) :
  args <> [] ->
  let tr1 := tr ++ [ELog Info (Running args); ESpawn args env dir] in
  (forall elapsed status,
     child w tr1 = Exits elapsed status -> 0 <= elapsed < timerAt hook ->
     runCommand w hook args env dir tr = (tr1, Ok tt)) /\
  (forall elapsed status,
     child w tr1 = Exits elapsed status -> timerAt hook < elapsed ->
     runCommand w hook args env dir tr =
     (tr1 ++ [EKill args], Err ("Command " +:+ fmtArgs args +:+ " timed out"))) /\
  (child w tr1 = Hangs ->
     runCommand w hook args env dir tr =
     (tr1 ++ [EKill args], Err ("Command " +:+ fmtArgs args +:+ " timed out"))) /\
  (child w tr1 = StartFailed -> 0 < timerAt hook ->
     runCommand w hook args env dir tr = (tr1, Ok tt)) /\
  spawned (drop (length tr) (runCommand w hook args env dir tr).1) = [args] /\
  (0 <= Timeout hook <= 9223372036 -> timerAt hook = Timeout hook * 1000000000).
Proof.
  intros Hargs tr1. rewrite runCommand_eq.
  destruct args as [|a args]; [done|]. cbv zeta. fold tr1.
  split_and!.
  - intros elapsed status Hc [H0 Ht]. rewrite Hc. cbn [doneAt].
    rewrite Z.max_r by done. by rewrite selectCase_done_first.
  - intros elapsed status Hc Ht. rewrite Hc. cbn [doneAt].
    assert (0 <= timerAt hook) by (unfold timerAt; lia).
    rewrite Z.max_r by lia. by rewrite selectCase_timer_first.
  - intros Hc. by rewrite Hc.
  - intros Hc Ht. rewrite Hc. cbn [doneAt]. by rewrite selectCase_done_first.
  - destruct (selectCase _ _ _).
    + unfold tr1. simpl. by rewrite drop_app_length.
    + destruct (child w tr1); unfold tr1; simpl; rewrite <- ?app_assoc;
        by rewrite drop_app_length.
  - apply timerAt_seconds.
Qed.

Lemma C5_exit_or_timeout_witness :
  runCommand Sample.world Sample.sleepFive ["/bin/sleep"; "5"] [] "" [] =
  (([] ++ [ELog Info (Running ["/bin/sleep"; "5"]); ESpawn ["/bin/sleep"; "5"] [] ""])
     ++ [EKill ["/bin/sleep"; "5"]],
   Err ("Command " +:+ fmtArgs ["/bin/sleep"; "5"] +:+ " timed out")).
Proof.
  refine (proj1 (proj2 (C5_exit_or_timeout Sample.world Sample.sleepFive
                          ["/bin/sleep"; "5"] [] "" [] _)) 5000000000 0 _ _).
  - discriminate.
  - reflexivity.
  - vm_compute. reflexivity.
Defined.

(** C5 as stated fails where it has the exit outcome reported: in the sample
    world [/bin/false] exits with status 1 a millisecond after its start,
    well before the five seconds of the hook, and [runCommand] returns nil,
    the same as for a child that exits with status 0. *)
Lemma C5_counterexample :
  ~ (forall (w : World) (hook : Hook) (args env : list string) (dir : string)
       (tr : Trace) (elapsed status : Z),
       args <> [] ->
       child w (tr ++ [ELog Info (Running args); ESpawn args env dir])
         = Exits elapsed status ->
       0 <= elapsed < timerAt hook -> status <> 0 ->
       (runCommand w hook args env dir tr).2 <> Ok tt).
Proof.
  intros H.
  apply (H Sample.world Sample.falseThenEcho ["/bin/false"] [] "" [] 1000000 1).
  - discriminate.
  - reflexivity.
  - vm_compute. split; [discriminate | reflexivity].
  - discriminate.
  - vm_compute. reflexivity.
Qed.

(** *** One unit *)





(** C4.  The trace of a unit splits in two: a first part in which no process
    is started, and a second part in which no path is looked up.  If any
    process is started at all, the first part holds one successful look-up
    per command of the hook.  If a look-up fails, for the first command or
    for a later one, no process of the unit is started and the unit returns
    the resolution error, which names the program. *)
Theorem C4_resolve_all_before_spawning (w : World) (hook : Hook) (e : Event) (tr : Trace) :
  exists pre run,
    (processEvent w hook e tr).1 = tr ++ pre ++ run /\
    spawned pre = [] /\ lookups run = [] /\
    (spawned run <> [] ->
       length (lookups pre) = length (cmdTemplate hook) /\
       Forall resolved (lookups pre)) /\
    (forall f err, (f, Fail err) ∈ lookups (pre ++ run) ->
       spawned (pre ++ run) = [] /\
       (processEvent w hook e tr).2 = Err ("Executable " +:+ f +:+ " " +:+ err)).
Proof.
  destruct (processEvent_spec w hook e tr)
    as (pre & run & Htr & _ & _ & _ & _ & Hsp & Hlk & Hfail & Hrun & _).
  exists pre, run. split_and!; auto.
  - intros Hne. apply Hrun. intros ->. by apply Hne.
  - intros f err Hin. rewrite lookups_app, Hlk, app_nil_r in Hin.
    destruct (Hfail f err Hin) as [-> Hr]. by rewrite app_nil_r.
Qed.

Lemma C4_resolve_all_before_spawning_witness :
  processEvent Sample.world Sample.missingProgram ∅ [] =
  ([EProcessEvent ∅; ERender [NText "nosuchprogram"];
    ELookPath "nosuchprogram" (Fail "executable file not found in $PATH")],
   Err "Executable nosuchprogram executable file not found in $PATH") /\
  exists pre run,
    (processEvent Sample.world Sample.missingProgram ∅ []).1 = [] ++ pre ++ run /\
    spawned pre = [] /\ lookups run = [].
Proof.
  split; [by vm_compute|].
  destruct (C4_resolve_all_before_spawning Sample.world Sample.missingProgram ∅ [])
    as (pre & run & H1 & H2 & H3 & _).
  by exists pre, run.
Defined.

(** *** The per-commit loop *)





(** C9, as the code has it.  In a per-commit dispatch the commit record is
    assigned under [commit] in the event map the caller passed, without a
    copy: each unit is entered with that map holding its record, and when
    [Execute] is over the caller's map is the one the last unit was entered
    with (it is unchanged if no unit was entered).  No other key is written. *)
Theorem C9_commit_injected_in_place (w : World) (hook : Hook) (e : Event) (tr : Trace)
  (commits : list Value) :
  PerCommit hook = true -> accepts hook e -> Commits w e = Some commits ->
  exists evs n,
    (Execute w hook e tr).2.1 = tr ++ evs /\
    calls evs = withCommit e <$> take n (omap asMap commits) /\
    (Execute w hook e tr).1 = default e (last (calls evs)) /\
    (forall k, k <> "commit" -> (Execute w hook e tr).1 !! k = e !! k) /\
    ((Execute w hook e tr).2.2 = Ok tt -> n = length (omap asMap commits)).
Proof.
  intros Hpc Hacc Hcs. rewrite Execute_accepts by done. unfold dispatch.
  rewrite Hpc, Hcs.
  destruct (perCommit_spec w hook commits e tr) as (evs & n & H1 & H2 & H3 & H4).
  exists evs, n. split_and!; auto.
  - intros k Hk. rewrite H3, H2.
    destruct (last (withCommit e <$> take n (omap asMap commits))) as [e'|] eqn:Hl; [|done].
    apply last_Some in Hl as [l' Hl].
    assert (Hin : e' ∈ withCommit e <$> take n (omap asMap commits)).
    { rewrite Hl. apply elem_of_app. right. by left. }
    apply list_elem_of_fmap in Hin as (c & -> & _).
    simpl. unfold withCommit. by rewrite lookup_insert_ne.
  - intros Hr. by rewrite Hr in H4.
Qed.

Lemma C9_commit_injected_in_place_witness :
  (Execute Sample.world Sample.perCommitEcho Sample.pushTwo []).1 =
  withCommit Sample.pushTwo Sample.commitB.
Proof.
  destruct (C9_commit_injected_in_place Sample.world Sample.perCommitEcho Sample.pushTwo []
              [VMap Sample.commitA; VMap Sample.commitB])
    as (evs & n & H1 & H2 & H3 & H4 & H5).
  - reflexivity.
  - split_and!; by intros [H _].
  - reflexivity.
  - rewrite H3, H2, (H5 eq_refl). reflexivity.
Defined.

(** C9 as stated fails: [Execute] does not work on a copy.  After the
    per-commit dispatch of the sample push event, the map the caller passed
    holds the second commit record under [commit], a key it did not have. *)
Lemma C9_counterexample :
  ~ (forall (w : World) (hook : Hook) (e : Event) (tr : Trace),
       (Execute w hook e tr).1 = e).
Proof.
  intros H.
  specialize (H Sample.world Sample.perCommitEcho Sample.pushTwo []).
  assert (Hk : (Execute Sample.world Sample.perCommitEcho Sample.pushTwo []).1 !! "commit"
               = Some (VMap Sample.commitB)) by (vm_compute; reflexivity).
  rewrite H in Hk. vm_compute in Hk. discriminate.
Qed.

(** *** Loading a hook *)

Section Compile.

Variable w : World.

Lemma compileList_ok (sources : list string) (ts : list (option Template)) :
  compileList w sources = (ts, None) -> compiledFrom w sources ts.
Proof.
  revert ts. induction sources as [|source rest IH]; intros ts; simpl.
  - intros [= <-]. constructor.
  - destruct (createTemplate w source) as [t|err] eqn:Ht; [|done].
    destruct (compileList w rest) as [ts' err']. intros [= <- ->].
    constructor; [eauto | by apply IH].
Qed.

Lemma compileList_length (sources : list string) :
  length (compileList w sources).1 = length sources.
Proof.
  induction sources as [|source rest IH]; simpl; [done|].
  destruct (createTemplate w source) as [t|err].
  - destruct (compileList w rest) as [ts' err']. simpl in *. by rewrite IH.
  - simpl. by rewrite length_replicate.
Qed.

(** The list stops being compiled at the first source that does not parse:
    the slots before it hold their templates, the others are nil. *)
Lemma compileList_fail (pre post : list string) (bad : string)
  (ts : list (option Template)) (err : string) :
  compiledFrom w pre ts -> createTemplate w bad = Fail err ->
  compileList w (pre ++ bad :: post) =
  (ts ++ None :: replicate (length post) None, Some err).
Proof.
  intros Hpre Hbad. induction Hpre as [|source slot pre ts (t & -> & Ht) _ IH]; simpl.
  - by rewrite Hbad.
  - by rewrite Ht, IH.
Qed.

Lemma compileCommands_ok (commands : list (list string))
  (tss : list (list (option Template))) :
  compileCommands w commands = (tss, None) -> Forall2 (compiledFrom w) commands tss.
Proof.
  revert tss. induction commands as [|cmdList rest IH]; intros tss; simpl.
  - intros [= <-]. constructor.
  - destruct (compileList w cmdList) as [ts [err|]] eqn:Hts; [done|].
    destruct (compileCommands w rest) as [tss' err']. intros [= <- ->].
    constructor; [by apply compileList_ok | by apply IH].
Qed.

(** A successful load leaves every compiled structure in step with its
    source list. *)
Lemma CreateTemplates_ok (hook hook' : Hook) :
  CreateTemplates w hook = (hook', None) ->
  Commands hook' = Commands hook /\ Env hook' = Env hook /\ Dir hook' = Dir hook /\
  Forall2 (compiledFrom w) (Commands hook) (cmdTemplate hook') /\
  compiledFrom w (Env hook) (envTemplate hook') /\
  (if String.eqb (Dir hook) "" then dirTemplate hook' = None
   else exists t, dirTemplate hook' = Some t /\ createTemplate w (Dir hook) = Val t).
Proof.
  unfold CreateTemplates.
  destruct (compileCommands w (Commands hook)) as [tss [err|]] eqn:Hc; [done|].
  apply compileCommands_ok in Hc. cbn [Env set_cmdTemplate].
  assert (He : exists ts err,
    (match Env hook with
     | [] => (set_envTemplate (set_cmdTemplate hook tss) [], None)
     | _ :: _ =>
         let '(ts, err) := compileList w (Env hook) in
         (set_envTemplate (set_cmdTemplate hook tss) ts, err)
     end) = (set_envTemplate (set_cmdTemplate hook tss) ts, err) /\
    compileList w (Env hook) = (ts, err)).
  { destruct (Env hook) as [|x l]; [by exists [], None|].
    destruct (compileList w (x :: l)) as [ts err]. by exists ts, err. }
  destruct He as (ts & err & -> & He). destruct err as [err|]; [done|].
  apply compileList_ok in He. cbn [Dir set_envTemplate set_cmdTemplate].
  destruct (String.eqb (Dir hook) "").
  - intros [= <-]. by split_and!.
  - destruct (createTemplate w (Dir hook)) as [t|err] eqn:Ht; [|done].
    intros [= <-]. split_and!; eauto.
Qed.

(** A hook that [CreateTemplates] accepted satisfies the invariant. *)
Lemma CreateTemplates_consistent (hook hook' : Hook) :
  CreateTemplates w hook = (hook', None) -> consistent w hook'.
Proof.
  intros H. destruct (CreateTemplates_ok hook hook' H) as (E1 & E2 & E3 & H1 & H2 & H3).
  unfold consistent. by rewrite E1, E2, E3.
Qed.

(** [main] calls [RunServer] only with hooks that satisfy the invariant: one
    failed [CreateTemplates] makes the process exit. *)
Lemma loadHooks_consistent (commandTimeout : Z) (secret : string)
  (hooks hooks' : list Hook) :
  loadHooks w commandTimeout secret hooks = Some hooks' ->
  Forall (consistent w) hooks'.
Proof.
  unfold loadHooks.
  destruct (existsb snd (map (loadHook w commandTimeout secret) hooks)) eqn:Hex; [done|].
  intros [= <-]. induction hooks as [|h hooks IH]; [constructor|].
  simpl in Hex. apply orb_false_iff in Hex as [Hh Hrest].
  simpl. constructor; [|by apply IH].
  clear IH Hrest. unfold loadHook in *.
  match goal with |- context [CreateTemplates w ?x] =>
    destruct (CreateTemplates w x) as [h' [err|]] eqn:Hc end; [done|].
  by apply CreateTemplates_consistent in Hc.
Qed.

End Compile.

(** C2, what the code does.  When every command compiles and an environment
    entry does not parse, [CreateTemplates] returns the error and leaves the
    hook with all its command templates compiled and an environment list
    whose entries before the failing one are compiled and the others nil.
    When the commands and the environment compile and the directory does not
    parse, it returns the error and leaves the command and environment
    templates compiled, without a directory template.  Only the failure of a
    command template resets the command templates to nil. *)
Theorem C2_failed_load_keeps_compiled_templates (w : World) (hook : Hook) :
  (forall tss pre bad post ts err,
     compileCommands w (Commands hook) = (tss, None) ->
     Env hook = pre ++ bad :: post -> compiledFrom w pre ts ->
     createTemplate w bad = Fail err ->
     CreateTemplates w hook =
     (set_envTemplate (set_cmdTemplate hook tss)
        (ts ++ None :: replicate (length post) None), Some err)) /\
  (forall tss ts err,
     compileCommands w (Commands hook) = (tss, None) ->
     compileList w (Env hook) = (ts, None) ->
     Dir hook <> "" -> createTemplate w (Dir hook) = Fail err ->
     CreateTemplates w hook =
     (set_dirTemplate (set_envTemplate (set_cmdTemplate hook tss) ts) None, Some err)) /\
  (forall tss err,
     compileCommands w (Commands hook) = (tss, Some err) ->
     CreateTemplates w hook = (set_cmdTemplate hook [], Some err)).
Proof.
  split_and!.
  - intros tss pre bad post ts err Hc He Hpre Hbad. unfold CreateTemplates.
    rewrite Hc. cbn [Env set_cmdTemplate]. rewrite He.
    rewrite (compileList_fail w pre post bad ts err Hpre Hbad).
    by destruct pre.
  - intros tss ts err Hc He Hd Hbad. unfold CreateTemplates.
    rewrite Hc. cbn [Env set_cmdTemplate]. rewrite He.
    assert (Hts : Env hook = [] -> ts = []).
    { intros H0. rewrite H0 in He. by injection He. }
    destruct (String.eqb_spec (Dir hook) "") as [|_]; [done|].
    destruct (Env hook) as [|x l]; [rewrite Hts by done|];
      cbn [Dir set_envTemplate set_cmdTemplate];
      destruct (String.eqb_spec (Dir hook) "") as [|_]; try done;
      by rewrite Hbad.
  - intros tss err Hc. unfold CreateTemplates. by rewrite Hc.
Qed.

Lemma C2_failed_load_keeps_compiled_templates_witness :
  CreateTemplates Sample.world Sample.badEnv =
  (set_envTemplate
     (set_cmdTemplate Sample.badEnv [[Some [NText "echo"]; Some [NText "hi"]]])
     ([Some [NText "A=1"]] ++ None :: replicate (length (@nil string)) None),
   Some "template: tmpl:1: unclosed action").
Proof.
  refine (proj1 (C2_failed_load_keeps_compiled_templates Sample.world Sample.badEnv)
            [[Some [NText "echo"]; Some [NText "hi"]]] ["A=1"] "B={{" []
            [Some [NText "A=1"]] "template: tmpl:1: unclosed action" _ _ _ _).
  - reflexivity.
  - reflexivity.
  - constructor; [|constructor]. by exists [NText "A=1"].
  - reflexivity.
Defined.

(** What the hooks left by a failed load would do if an event were
    dispatched to them: with the nil environment template the unit panics;
    with the directory template missing the command is started in the
    current directory. *)
Lemma failed_load_if_dispatched :
  (CreateTemplates Sample.world Sample.badDir).2 = Some "template: tmpl:1: unclosed action" /\
  processEvent Sample.world (CreateTemplates Sample.world Sample.badEnv).1 ∅ [] =
    ([EProcessEvent ∅; ERender [NText "A=1"]], Panic NilDereference) /\
  spawned (processEvent Sample.world (CreateTemplates Sample.world Sample.badDir).1 ∅ []).1 =
    [["/bin/echo"; "hi"]].
Proof. split_and!; by vm_compute. Qed.

(** *** Empty commands *)

(** C10.  [processEvent] and [runCommand] take the first element of a
    command without a test.  For a hook loaded without error, no unit runs
    into an index out of range as long as every command of [Commands] has at
    least one argument; a command without arguments makes [processEvent]
    panic at [cmds[i][0]] as soon as it reaches it, which it does at once
    when the command is the first one and the hook has no directory and no
    environment; and [runCommand] on an empty argument list panics at
    [args[0]]. *)
Theorem C10_commands_must_be_nonempty (w : World) (hook hook' : Hook) (e : Event)
  (tr : Trace) :
  CreateTemplates w hook = (hook', None) ->
  (Forall (fun cmdList => cmdList <> []) (Commands hook) ->
     (processEvent w hook' e tr).2 <> Panic IndexOutOfRange) /\
  ((processEvent w hook' e tr).2 = Panic IndexOutOfRange ->
     Exists (fun cmdList => cmdList = []) (Commands hook)) /\
  (forall rest, Dir hook = "" -> Env hook = [] -> Commands hook = [] :: rest ->
     processEvent w hook' e tr = (tr ++ [EProcessEvent e], Panic IndexOutOfRange)) /\
  (forall env dir,
     runCommand w hook' [] env dir tr =
     (tr ++ [ELog Info (Running [])], Panic IndexOutOfRange)).
Proof.
  intros Hload.
  destruct (CreateTemplates_ok w hook hook' Hload) as (_ & _ & _ & Hcmds & Henv & Hdir).
  assert (Hpanic : (processEvent w hook' e tr).2 = Panic IndexOutOfRange ->
                   Exists (fun cmdList => cmdList = []) (Commands hook)).
  { intros Hp.
    destruct (processEvent_spec w hook' e tr) as (pre & run & _ & _ & _ & _ & _ & _ & _ & _ & _ & Hr).
    rewrite Hp in Hr. specialize (Hr eq_refl).
    clear -Hcmds Hr. induction Hcmds as [|c ts cs tss Hc _ IH].
    - inversion Hr.
    - inversion Hr as [? ? Hts|? ? Hex]; subst.
      + left. inversion Hc. done.
      + right. by apply IH. }
  split_and!.
  - intros Hne Hp. apply Hpanic in Hp.
    apply Exists_exists in Hp as (c & Hin & ->).
    rewrite Forall_forall in Hne. by apply (Hne [] Hin).
  - exact Hpanic.
  - intros rest Hd He Hc. rewrite processEvent_eq. unfold renderDir.
    rewrite Hd in Hdir. simpl in Hdir. rewrite Hdir.
    rewrite He in Henv. inversion Henv as [Hnil|].
    rewrite Hc in Hcmds. inversion Hcmds as [|? ts ? tss Hts Htss Heq1 Heq2].
    inversion Hts. subst. reflexivity.
  - intros env dir. by rewrite runCommand_eq.
Qed.

Lemma C10_commands_must_be_nonempty_witness :
  processEvent Sample.world Sample.emptyCommand ∅ [] =
    ([] ++ [EProcessEvent ∅], Panic IndexOutOfRange) /\
  (processEvent Sample.world Sample.echoRef Sample.pushMain []).2
    <> Panic IndexOutOfRange.
Proof.
  split.
  - refine (proj1 (proj2 (proj2
              (C10_commands_must_be_nonempty Sample.world
                 (newHook "/deploy" "" [] false [] [] [] [[]] 5)
                 Sample.emptyCommand ∅ [] _))) [] _ _ _); reflexivity.
  - refine (proj1
              (C10_commands_must_be_nonempty Sample.world
                 (newHook "/deploy" "" [] false [] [] ["main"] [["echo"; "{{.ref}}"]] 5)
                 Sample.echoRef Sample.pushMain [] _) _).
    + reflexivity.
    + repeat constructor; discriminate.
Defined.

(** * Further properties of the code *)

(** ** CreateTemplates *)

Section CompileMore.

Variable w : World.

Lemma firstError_app (l1 l2 : list string) :
  firstError w (l1 ++ l2) =
  match firstError w l1 with
  | Some err => Some err
  | None => firstError w l2
  end.
Proof.
  induction l1 as [|s l1 IH]; simpl; [done|].
  by destruct (createTemplate w s).
Qed.

Lemma compileList_error (sources : list string) :
  (compileList w sources).2 = firstError w sources.
Proof.
  induction sources as [|s rest IH]; simpl; [done|].
  destruct (createTemplate w s); [|done].
  by destruct (compileList w rest).
Qed.

Lemma compileCommands_error (commands : list (list string)) :
  (compileCommands w commands).2 = firstError w (concat commands).
Proof.
  induction commands as [|c rest IH]; simpl; [done|].
  rewrite firstError_app, <- compileList_error.
  destruct (compileList w c) as [ts [err|]]; [done|].
  by destruct (compileCommands w rest).
Qed.

Lemma firstError_None (sources : list string) :
  firstError w sources = None <->
  Forall (fun source => exists t, createTemplate w source = Val t) sources.
Proof.
  induction sources as [|s rest IH]; simpl.
  - split; [constructor | done].
  - destruct (createTemplate w s) as [t|err] eqn:Hs.
    + rewrite IH. split; [intros H; constructor; eauto | by inversion 1].
    + split; [done|]. inversion 1 as [|? ? [t Ht]]. congruence.
Qed.

End CompileMore.

(** [CreateTemplates] with its two tests on empty sources folded in. *)
Lemma CreateTemplates_eq (w : World) (hook : Hook) :
  CreateTemplates w hook =
  match compileCommands w (Commands hook) with
  | (_, Some err) => (set_cmdTemplate hook [], Some err)
  | (tss, None) =>
      match compileList w (Env hook) with
      | (ts, Some err) => (set_envTemplate (set_cmdTemplate hook tss) ts, Some err)
      | (ts, None) =>
          let hook' := set_envTemplate (set_cmdTemplate hook tss) ts in
          if String.eqb (Dir hook) "" then (set_dirTemplate hook' None, None)
          else
            match createTemplate w (Dir hook) with
            | Fail err => (set_dirTemplate hook' None, Some err)
            | Val t => (set_dirTemplate hook' (Some t), None)
            end
      end
  end.
Proof.
  unfold CreateTemplates.
  destruct (compileCommands w (Commands hook)) as [tss [err|]]; [done|].
  cbn [Env set_cmdTemplate].
  destruct (Env hook) as [|x l]; [done|].
  by destruct (compileList w (x :: l)) as [ts [err|]].
Qed.

(** X1.  The error [CreateTemplates] returns is the error of the first
    template source that does not compile, the sources being taken in the
    order: the arguments of the commands (command by command), the
    environment entries, the directory if it is not empty.  So it returns
    nil exactly when every source compiles, and the hook it then leaves has
    every compiled structure in step with its source list. *)
Theorem CreateTemplates_first_error (w : World) (hook : Hook) :
  (CreateTemplates w hook).2 = firstError w (templateSources hook) /\
  ((CreateTemplates w hook).2 = None <->
   Forall (fun source => exists t, createTemplate w source = Val t)
     (templateSources hook)) /\
  ((CreateTemplates w hook).2 = None -> consistent w (CreateTemplates w hook).1).
Proof.
  assert (H1 : (CreateTemplates w hook).2 = firstError w (templateSources hook)).
  { rewrite CreateTemplates_eq. unfold templateSources. rewrite !firstError_app.
    rewrite <- compileCommands_error, <- compileList_error.
    destruct (compileCommands w (Commands hook)) as [tss [err|]]; [done|].
    destruct (compileList w (Env hook)) as [ts [err|]]; [done|]. cbv zeta.
    destruct (String.eqb (Dir hook) ""); [done|]. simpl.
    by destruct (createTemplate w (Dir hook)). }
  split_and!.
  - exact H1.
  - rewrite H1. apply firstError_None.
  - intros Hnil. apply (CreateTemplates_consistent w hook).
    by destruct (CreateTemplates w hook) as [h' [err|]].
Qed.

Lemma CreateTemplates_first_error_witness :
  consistent Sample.world
    (CreateTemplates Sample.world
       (newHook "/deploy" "" [] false [] [] ["main"] [["echo"; "{{.ref}}"]] 5)).1.
Proof.
  apply (proj2 (proj2 (CreateTemplates_first_error Sample.world
           (newHook "/deploy" "" [] false [] [] ["main"] [["echo"; "{{.ref}}"]] 5)))).
  reflexivity.
Defined.

(** X2.  [CreateTemplates] writes the three compiled fields only, and it is
    idempotent: called again on the hook it left, whether it failed or not,
    it leaves the same hook and returns the same error. *)
Theorem CreateTemplates_idempotent (w : World) (hook : Hook) :
  sameConfiguration (CreateTemplates w hook).1 hook /\
  CreateTemplates w (CreateTemplates w hook).1 = CreateTemplates w hook.
Proof.
  rewrite (CreateTemplates_eq w (CreateTemplates w hook).1).
  rewrite (CreateTemplates_eq w hook). unfold sameConfiguration.
  destruct (compileCommands w (Commands hook)) as [tss [err|]] eqn:Hc.
  { cbn. rewrite Hc. by split_and!. }
  destruct (compileList w (Env hook)) as [ts [err|]] eqn:Hl.
  { cbn. rewrite Hc, Hl. by split_and!. }
  cbv zeta. destruct (String.eqb (Dir hook) "") eqn:Hd.
  { cbn. rewrite Hc, Hl, Hd. by split_and!. }
  destruct (createTemplate w (Dir hook)) as [t|err] eqn:Ht;
    cbn; rewrite Hc, Hl, Hd, Ht; by split_and!.
Qed.

(** ** Execute *)

Lemma perCommit_frame (w : World) (hook : Hook) (commits : list Value) (e : Event)
  (tr : Trace) (k : string) :
  k <> "commit" -> (perCommit w hook commits e tr).1 !! k = e !! k.
Proof.
  intros Hk.
  destruct (perCommit_spec w hook commits e tr) as (evs & n & _ & H2 & H3 & _).
  rewrite H3, H2.
  destruct (last (withCommit e <$> take n (omap asMap commits))) as [e'|] eqn:Hl; [|done].
  apply last_Some in Hl as [l' Hl].
  assert (Hin : e' ∈ withCommit e <$> take n (omap asMap commits)).
  { rewrite Hl. apply elem_of_app. right. by left. }
  apply list_elem_of_fmap in Hin as (c & -> & _).
  simpl. unfold withCommit. by rewrite lookup_insert_ne.
Qed.

(** X3.  [Execute] never ends with an error: whatever a unit returns is
    logged and dropped, so a call ends normally or with a panic.  It only
    adds to the trace, and the only key of the event map it ever writes is
    [commit]; a hook that is not per-commit leaves the map as it was. *)
Theorem Execute_drops_errors_writes_commit_only (w : World) (hook : Hook) (e : Event)
  (tr : Trace) :
  (forall msg, (Execute w hook e tr).2.2 <> Err msg) /\
  (exists evs, (Execute w hook e tr).2.1 = tr ++ evs) /\
  (forall k, k <> "commit" -> (Execute w hook e tr).1 !! k = e !! k) /\
  (PerCommit hook = false -> (Execute w hook e tr).1 = e).
Proof.
  unfold Execute.
  destruct (checkEventType hook e) as [[sev msg]|]; [by split_and!; eauto|].
  destruct (checkPipelineStatus hook e) as [[sev msg]|]; [by split_and!; eauto|].
  destruct (checkBranch hook e) as [[sev msg]|]; [by split_and!; eauto|].
  unfold dispatch. destruct (PerCommit hook).
  - destruct (Commits w e) as [commits|].
    + destruct (perCommit_spec w hook commits e tr) as (evs & n & H1 & _ & _ & H4).
      split_and!; eauto.
      * intros msg Hm. by rewrite Hm in H4.
      * intros k Hk. by apply perCommit_frame.
      * done.
    + split_and!; eauto. exists []. by rewrite app_nil_r.
  - destruct (processAndLog_spec w hook e tr) as (evs & H1 & _ & H3).
    split_and!; eauto. intros msg Hm. cbn [snd] in *. by rewrite Hm in H3.
Qed.

Lemma perCommit_no_records (w : World) (hook : Hook) (commits : list Value)
  (e : Event) (tr : Trace) :
  omap asMap commits = [] ->
  perCommit w hook commits e tr =
  (e, (tr ++ ((fun generic => ELog Error (CommitHadType generic)) <$> commits), Ok tt)).
Proof.
  revert tr. induction commits as [|generic rest IH]; intros tr Hnone.
  - simpl. by rewrite app_nil_r.
  - cbn [perCommit].
    change (omap asMap (generic :: rest))
      with (match asMap generic with
            | Some y => y :: omap asMap rest
            | None => omap asMap rest
            end) in Hnone.
    destruct (asMap generic) as [c|]; [done|].
    rewrite IH by done. cbn [fmap list_fmap]. by rewrite <- app_assoc.
Qed.

(** X4.  A per-commit hook runs nothing for an accepted event without commit
    records.  When the derived commit list is nil no unit is entered and
    nothing at all is logged, however many commands the hook has; when the
    list holds no mapping, each element costs one error line and no unit is
    entered either.  The event map is not written in either case. *)
Theorem per_commit_without_records (w : World) (hook : Hook) (e : Event) (tr : Trace) :
  PerCommit hook = true -> accepts hook e ->
  (Commits w e = None -> Execute w hook e tr = (e, (tr, Ok tt))) /\
  (forall commits,
     Commits w e = Some commits -> omap asMap commits = [] ->
     Execute w hook e tr =
     (e, (tr ++ ((fun generic => ELog Error (CommitHadType generic)) <$> commits),
          Ok tt))).
Proof.
  intros Hpc Hacc. rewrite Execute_accepts by done. unfold dispatch. rewrite Hpc.
  split.
  - by intros ->.
  - intros commits -> Hnone. by apply perCommit_no_records.
Qed.

Lemma per_commit_without_records_witness :
  Execute Sample.world Sample.perCommitEcho Sample.pushMain [] =
  (Sample.pushMain, ([], Ok tt)).
Proof.
  refine (proj1 (per_commit_without_records Sample.world Sample.perCommitEcho
                   Sample.pushMain [] _ _) _).
  - reflexivity.
  - split_and!; by intros [H _].
  - reflexivity.
Defined.

(** X5.  The branch filter always compares the stripped name.  If every
    entry of the allow-list is written as a full ref, with the prefix
    [refs/heads/], a push to a branch whose own name does not start with
    [refs/heads/] never matches: the event is rejected with the
    informational line naming the stripped branch, the other filters having
    passed. *)
Theorem full_refs_in_allow_list_never_match (w : World) (hook : Hook) (e : Event)
  (tr : Trace) (branch : string) :
  AllowBranches hook <> [] ->
  Forall (fun a => HasPrefix a prefixString = true) (AllowBranches hook) ->
  HasPrefix branch prefixString = false ->
  e !! "ref" = Some (VStr (prefixString +:+ branch)) ->
  ~ rejectedBy (AllowEvent hook) (e !! "type") ->
  ~ rejectedBy (AllowPipelineStatus hook) (e !! "status") ->
  Execute w hook e tr =
  (e, (tr ++ [ELog Info (IgnoredBranch (Url hook) branch)], Ok tt)).
Proof.
  intros Hne Hall Hb Href H1 H2. unfold Execute.
  assert (E1 : checkEventType hook e = None).
  { destruct (checkEventType hook e) as [[sev msg]|] eqn:E; [|done].
    destruct H1. apply checkEventType_rejects. eauto. }
  assert (E2 : checkPipelineStatus hook e = None).
  { destruct (checkPipelineStatus hook e) as [[sev msg]|] eqn:E; [|done].
    destruct H2. apply checkPipelineStatus_rejects. eauto. }
  rewrite E1, E2. unfold checkBranch.
  destruct (AllowBranches hook) as [|a l] eqn:Hl; [done|].
  rewrite Href. cbn [asString]. rewrite stripRef_prefixed.
  assert (Hnot : allowed (a :: l) branch = false).
  { apply allowed_false. intros Hin. rewrite Forall_forall in Hall.
    specialize (Hall branch Hin). congruence. }
  by rewrite Hnot.
Qed.

Lemma full_refs_in_allow_list_never_match_witness :
  Execute Sample.world
    (newHook "/deploy" "" [] false [] [] ["refs/heads/main"] [["echo"; "hi"]] 5)
    Sample.pushMain [] =
  (Sample.pushMain, ([] ++ [ELog Info (IgnoredBranch "/deploy" "main")], Ok tt)).
Proof.
  apply (full_refs_in_allow_list_never_match Sample.world
           (newHook "/deploy" "" [] false [] [] ["refs/heads/main"] [["echo"; "hi"]] 5)
           Sample.pushMain [] "main").
  - discriminate.
  - repeat constructor.
  - reflexivity.
  - reflexivity.
  - by intros [H _].
  - by intros [H _].
Defined.

(** ** One unit, in more detail *)

Section UnitMore.

Variable w : World.

Lemma kills_app (a b : Trace) : kills (a ++ b) = kills a ++ kills b.
Proof.
  induction a as [|ev a IH]; simpl; [done|]. destruct ev; simpl; by rewrite ?IH.
Qed.

Lemma spawnSettings_app (a b : Trace) :
  spawnSettings (a ++ b) = spawnSettings a ++ spawnSettings b.
Proof.
  induction a as [|ev a IH]; simpl; [done|]. destruct ev; simpl; by rewrite ?IH.
Qed.

Lemma rendered_app (a b : Trace) : rendered (a ++ b) = rendered a ++ rendered b.
Proof.
  induction a as [|ev a IH]; simpl; [done|]. destruct ev; simpl; by rewrite ?IH.
Qed.

Lemma render_only_quiet (evs : Trace) :
  Forall (fun ev => isRender ev = true) evs ->
  kills evs = [] /\ spawnSettings evs = [] /\ evs = ERender <$> rendered evs.
Proof.
  induction 1 as [|ev l H _ (IH1 & IH2 & IH3)]; [done|].
  destruct ev; try discriminate. cbn [kills spawnSettings rendered fmap list_fmap].
  split_and!; auto. by f_equal.
Qed.

Lemma processCommand_cons (e : Event) (t : option Template)
  (ts : list (option Template)) (tr : Trace) :
  processCommand w e (t :: ts) tr =
  match render w t e tr with
  | (tr1, Ok cmd) =>
      match processCommand w e ts tr1 with
      | (tr2, Ok cmdList) => (tr2, Ok (cmd :: cmdList))
      | (tr2, Err msg) => (tr2, Err msg)
      | (tr2, Panic p) => (tr2, Panic p)
      end
  | (tr1, Err msg) => (tr1, Err msg)
  | (tr1, Panic p) => (tr1, Panic p)
  end.
Proof.
  cbn [processCommand]. unfold bind, ret.
  by destruct (render w t e tr) as [tr1 [cmd|msg|p]].
Qed.

(** Rendering a list of templates, by the templates it gets to. *)
Lemma processCommand_more (e : Event) (ts : list (option Template)) (tr : Trace) :
  exists evs,
    (processCommand w e ts tr).1 = tr ++ evs /\
    Forall (fun ev => isRender ev = true) evs /\
    rendered evs `prefix_of` omap id ts /\
    match (processCommand w e ts tr).2 with
    | Ok cmd => rendered evs = omap id ts /\ cmd = textsOf w e ts
    | _ => True
    end.
Proof.
  revert tr. induction ts as [|t ts IH]; intros tr.
  - exists []. simpl. by rewrite app_nil_r.
  - rewrite processCommand_cons, render_eq. destruct t as [t0|].
    + change (omap id (Some t0 :: ts)) with (t0 :: omap id ts).
      destruct (tmplExecute w t0 e) as [out [err|]] eqn:Ht.
      * exists [ERender t0]. cbn [fst snd rendered].
        split_and!; auto. apply prefix_cons, prefix_nil.
      * destruct (IH (tr ++ [ERender t0])) as (evs & Htr & Hev & Hpre & Hr).
        destruct (processCommand w e ts (tr ++ [ERender t0])) as [tr' r].
        cbn [fst snd] in *. subst tr'. exists (ERender t0 :: evs).
        assert (Happ : (tr ++ [ERender t0]) ++ evs = tr ++ ERender t0 :: evs)
          by (by rewrite <- app_assoc).
        destruct r as [cmd|msg|p]; cbn [fst snd]; rewrite Happ;
          split_and!; auto; try (simpl; by apply prefix_cons).
        -- simpl. f_equal. apply Hr.
        -- destruct Hr as [_ ->]. unfold textsOf.
           change (omap id (Some t0 :: ts)) with (t0 :: omap id ts).
           cbn [fmap list_fmap]. f_equal. unfold textOf. by rewrite Ht.
    + exists []. simpl. rewrite app_nil_r. split_and!; auto. apply prefix_nil.
Qed.

Lemma startedFrom_mono (e : Event) (found found' : list (string * Res string))
  (ts : list (option Template)) (cmd : list string) :
  found ⊆ found' -> startedFrom w e found ts cmd -> startedFrom w e found' ts cmd.
Proof.
  intros Hsub (name & path & H1 & H2 & H3). exists name, path. split_and!; auto.
Qed.

(** The first loop of [processEvent], by what it renders and prepares. *)
Lemma prepare_more (e : Event) (tss : list (list (option Template))) (tr : Trace) :
  exists evs,
    (prepare w e tss tr).1 = tr ++ evs /\
    kills evs = [] /\ spawnSettings evs = [] /\
    rendered evs `prefix_of` omap id (concat tss) /\
    match (prepare w e tss tr).2 with
    | Ok cmds =>
        rendered evs = omap id (concat tss) /\
        Forall2 (startedFrom w e (lookups evs)) tss cmds
    | _ => True
    end.
Proof.
  revert tr. induction tss as [|ts tss IH]; intros tr.
  - exists []. simpl. rewrite app_nil_r. split_and!; auto.
  - rewrite prepare_cons. cbn [concat]. rewrite omap_app.
    destruct (processCommand_more e ts tr) as (evs1 & Htr1 & Hev1 & Hpre1 & Hr1).
    destruct (processCommand w e ts tr) as [tr1 r1]. cbn [fst snd] in *. subst tr1.
    destruct (render_only_quiet _ Hev1) as (Hk1 & Hs1 & _).
    destruct (render_only _ Hev1) as (_ & _ & Hl1 & _).
    destruct r1 as [[|name args]|msg|p].
    1, 3, 4: exists evs1; cbn [fst snd]; split_and!; auto; by apply prefix_app_r.
    destruct Hr1 as [Hren1 Hcmd1]. cbv zeta.
    destruct (lookPath w (tr ++ evs1) name) as [execPath|err] eqn:Hlp.
    + destruct (IH ((tr ++ evs1) ++ [ELookPath name (Val execPath)]))
        as (evs2 & Htr2 & Hk2 & Hs2 & Hpre2 & Hr2).
      destruct (prepare w e tss ((tr ++ evs1) ++ [ELookPath name (Val execPath)]))
        as [tr2 r2]. cbn [fst snd] in *. subst tr2.
      exists (evs1 ++ ELookPath name (Val execPath) :: evs2).
      rewrite kills_app, spawnSettings_app, rendered_app, lookups_app, Hk1, Hs1, Hl1, Hren1.
      cbn [kills spawnSettings rendered lookups app].
      assert (Happ : ((tr ++ evs1) ++ [ELookPath name (Val execPath)]) ++ evs2
                     = tr ++ evs1 ++ ELookPath name (Val execPath) :: evs2)
        by (by rewrite <- !app_assoc).
      destruct r2 as [cmds|msg|p]; cbn [fst snd]; rewrite Happ;
        split_and!; auto; try (by apply prefix_app).
      * f_equal. apply Hr2.
      * destruct Hr2 as [_ Hall]. constructor.
        -- exists name, execPath. rewrite <- Hcmd1. split_and!; auto. by left.
        -- eapply Forall2_impl; [exact Hall|]. intros ts' cmd'.
           apply startedFrom_mono. intros x Hx. by right.
    + exists (evs1 ++ [ELookPath name (Fail err)]).
      rewrite kills_app, spawnSettings_app, rendered_app, Hk1, Hs1, Hren1.
      cbn [kills spawnSettings rendered fst snd]. rewrite <- app_assoc.
      split_and!; auto. apply prefix_app, prefix_nil.
Qed.

(** The second loop of [processEvent], by what it starts and kills. *)
Lemma runCommands_more (hook : Hook) (cmds : list (list string))
  (env : list string) (dir : string) (tr : Trace) :
  exists evs,
    (runCommands w hook cmds env dir tr).1 = tr ++ evs /\
    rendered evs = [] /\
    spawned evs `prefix_of` cmds /\
    spawnSettings evs = replicate (length (spawned evs)) (env, dir) /\
    match (runCommands w hook cmds env dir tr).2 with
    | Ok _ => spawned evs = cmds /\ kills evs = []
    | Err msg =>
        exists args,
          last (spawned evs) = Some args /\ kills evs = [args] /\
          msg = "Command " +:+ fmtArgs args +:+ " timed out"
    | Panic _ => kills evs = []
    end.
Proof.
  revert tr. induction cmds as [|cmd cmds IH]; intros tr.
  - exists []. simpl. by rewrite app_nil_r.
  - rewrite runCommands_cons, runCommand_eq. destruct cmd as [|a cmd].
    { eexists. split; [done|]. cbn. split_and!; auto. apply prefix_nil. }
    cbv zeta.
    set (tr1 := tr ++ [ELog Info (Running (a :: cmd)); ESpawn (a :: cmd) env dir]).
    destruct (selectCase _ _ _).
    + destruct (IH tr1) as (evs2 & Htr2 & Hren2 & Hpre2 & Hset2 & Hr2).
      destruct (runCommands w hook cmds env dir tr1) as [tr2 r2].
      cbn [fst snd] in *. subst tr2.
      exists ([ELog Info (Running (a :: cmd)); ESpawn (a :: cmd) env dir] ++ evs2).
      unfold tr1. rewrite <- app_assoc. split; [done|].
      cbn [app rendered spawned spawnSettings kills length replicate].
      split_and!; auto.
      * by apply prefix_cons.
      * by rewrite Hset2.
      * destruct r2 as [[]|msg|p]; auto.
        -- destruct Hr2 as [-> ->]. done.
        -- destruct Hr2 as (args & Hlast & Hk & ->). exists args. split_and!; auto.
           destruct (spawned evs2) as [|x l]; [done|]. by rewrite last_cons_cons.
    + assert (Hsp : spawned [ELog Info (Running (a :: cmd)); ESpawn (a :: cmd) env dir]
                    `prefix_of` (a :: cmd) :: cmds).
      { cbn. apply prefix_cons, prefix_nil. }
      destruct (child w tr1).
      * eexists. unfold tr1. split; [done|]. cbn. split_and!; auto.
      * eexists. unfold tr1. rewrite <- app_assoc. split; [done|].
        cbn. split_and!; auto. by exists (a :: cmd).
      * eexists. unfold tr1. rewrite <- app_assoc. split; [done|].
        cbn. split_and!; auto. by exists (a :: cmd).
Qed.

Lemma renderDir_more (hook : Hook) (e : Event) (tr : Trace) :
  exists evs,
    (renderDir w hook e tr).1 = tr ++ evs /\
    Forall (fun ev => isRender ev = true) evs /\
    rendered evs `prefix_of` match dirTemplate hook with Some t => [t] | None => [] end /\
    match (renderDir w hook e tr).2 with
    | Ok dir =>
        rendered evs = match dirTemplate hook with Some t => [t] | None => [] end /\
        dir = unitDir w hook e
    | _ => True
    end.
Proof.
  unfold renderDir, unitDir. destruct (dirTemplate hook) as [t|].
  - rewrite render_eq. exists [ERender t]. split; [done|].
    split; [by repeat constructor|]. split; [done|].
    unfold textOf. by destruct (tmplExecute w t e) as [out [err|]].
  - exists []. simpl. by rewrite app_nil_r.
Qed.

(** One unit, by what it renders, starts and kills. *)
Lemma processEvent_more (hook : Hook) (e : Event) (tr : Trace) :
  exists evs cmds,
    (processEvent w hook e tr).1 = tr ++ evs /\
    rendered evs `prefix_of` unitTemplates hook /\
    spawned evs `prefix_of` cmds /\
    spawnSettings evs =
      replicate (length (spawned evs)) (unitEnv w hook e, unitDir w hook e) /\
    (spawned evs <> [] ->
       rendered evs = unitTemplates hook /\
       Forall2 (startedFrom w e (lookups evs)) (cmdTemplate hook) cmds) /\
    match (processEvent w hook e tr).2 with
    | Ok _ =>
        rendered evs = unitTemplates hook /\
        Forall2 (startedFrom w e (lookups evs)) (cmdTemplate hook) cmds /\
        spawned evs = cmds /\ kills evs = []
    | Err msg =>
        kills evs = [] \/
        exists args,
          last (spawned evs) = Some args /\ kills evs = [args] /\
          msg = "Command " +:+ fmtArgs args +:+ " timed out"
    | Panic _ => kills evs = []
    end.
Proof.
  rewrite processEvent_eq. unfold unitTemplates.
  destruct (renderDir_more hook e (tr ++ [EProcessEvent e]))
    as (evs1 & Htr1 & Hev1 & Hpre1 & Hr1).
  destruct (renderDir w hook e (tr ++ [EProcessEvent e])) as [tr1 r1].
  cbn [fst snd] in *. subst tr1.
  destruct (render_only_quiet _ Hev1) as (Hk1 & Hs1 & _).
  destruct (render_only _ Hev1) as (_ & _ & Hl1 & Hsp1).
  assert (Htr1 : (tr ++ [EProcessEvent e]) ++ evs1 = tr ++ EProcessEvent e :: evs1)
    by (repeat (rewrite <- app_assoc; cbn [app]); done).
  rewrite Htr1. clear Htr1.
  destruct r1 as [dir|msg|p].
  2, 3: exists (EProcessEvent e :: evs1), []; cbn [fst snd rendered spawned kills spawnSettings];
    rewrite Hk1, Hs1, Hsp1; cbn [length replicate];
    split_and!; auto; [by apply prefix_app_r | done].
  destruct Hr1 as [Hren1 ->].
  destruct (processCommand_more e (envTemplate hook) (tr ++ EProcessEvent e :: evs1))
    as (evs2 & Htr2 & Hev2 & Hpre2 & Hr2).
  destruct (processCommand w e (envTemplate hook) (tr ++ EProcessEvent e :: evs1))
    as [tr2 r2]. cbn [fst snd] in *. subst tr2.
  destruct (render_only_quiet _ Hev2) as (Hk2 & Hs2 & _).
  destruct (render_only _ Hev2) as (_ & _ & Hl2 & Hsp2).
  assert (Htr2 : (tr ++ EProcessEvent e :: evs1) ++ evs2
                 = tr ++ EProcessEvent e :: evs1 ++ evs2)
    by (repeat (rewrite <- app_assoc; cbn [app]); done).
  rewrite Htr2. clear Htr2.
  destruct r2 as [env|msg|p].
  2, 3: exists (EProcessEvent e :: evs1 ++ evs2), [];
    cbn [fst snd rendered spawned kills spawnSettings];
    rewrite rendered_app, spawned_app, kills_app, spawnSettings_app,
      Hk1, Hs1, Hsp1, Hk2, Hs2, Hsp2, Hren1; cbn [app length replicate];
    split_and!; auto; [by apply prefix_app, prefix_app_r | done].
  destruct Hr2 as [Hren2 ->]. fold (unitEnv w hook e).
  destruct (prepare_more e (cmdTemplate hook) (tr ++ EProcessEvent e :: evs1 ++ evs2))
    as (evs3 & Htr3 & Hk3 & Hs3 & Hpre3 & Hr3).
  destruct (prepare_spec w e (cmdTemplate hook) (tr ++ EProcessEvent e :: evs1 ++ evs2))
    as (evs3' & Htr3' & _ & _ & Hsp3 & _).
  rewrite Htr3 in Htr3'. apply app_inv_head in Htr3'. subst evs3'.
  destruct (prepare w e (cmdTemplate hook) (tr ++ EProcessEvent e :: evs1 ++ evs2))
    as [tr3 r3]. cbn [fst snd] in *. subst tr3.
  assert (Htr3 : (tr ++ EProcessEvent e :: evs1 ++ evs2) ++ evs3
                 = tr ++ EProcessEvent e :: evs1 ++ evs2 ++ evs3)
    by (repeat (rewrite <- app_assoc; cbn [app]); done).
  rewrite Htr3. clear Htr3.
  destruct r3 as [cmds|msg|p].
  2, 3: exists (EProcessEvent e :: evs1 ++ evs2 ++ evs3), [];
    cbn [fst snd rendered spawned kills spawnSettings];
    rewrite !rendered_app, !spawned_app, !kills_app, !spawnSettings_app,
      Hk1, Hs1, Hsp1, Hk2, Hs2, Hsp2, Hk3, Hs3, Hsp3, Hren1, Hren2;
    cbn [app length replicate];
    split_and!; auto; [by apply prefix_app, prefix_app | done].
  destruct Hr3 as [Hren3 Hall].
  destruct (runCommands_more hook cmds (unitEnv w hook e) (unitDir w hook e)
              (tr ++ EProcessEvent e :: evs1 ++ evs2 ++ evs3))
    as (evs4 & Htr4 & Hren4 & Hpre4 & Hset4 & Hr4).
  destruct (runCommands_spec w hook cmds (unitEnv w hook e) (unitDir w hook e)
              (tr ++ EProcessEvent e :: evs1 ++ evs2 ++ evs3))
    as (evs4' & Htr4' & _ & _ & Hl4 & _).
  rewrite Htr4 in Htr4'. apply app_inv_head in Htr4'. subst evs4'.
  destruct (runCommands w hook cmds (unitEnv w hook e) (unitDir w hook e)
              (tr ++ EProcessEvent e :: evs1 ++ evs2 ++ evs3)) as [tr4 r4].
  cbn [fst snd] in *. subst tr4.
  exists (EProcessEvent e :: evs1 ++ evs2 ++ evs3 ++ evs4), cmds.
  assert (Hall' : Forall2
            (startedFrom w e (lookups (EProcessEvent e :: evs1 ++ evs2 ++ evs3 ++ evs4)))
            (cmdTemplate hook) cmds).
  { eapply Forall2_impl; [exact Hall|]. intros ts' cmd'. apply startedFrom_mono.
    cbn [lookups]. rewrite !lookups_app, Hl1, Hl2, Hl4, app_nil_r. done. }
  cbn [rendered spawned kills spawnSettings].
  rewrite !rendered_app, !spawned_app, !kills_app, !spawnSettings_app,
    Hk1, Hs1, Hsp1, Hk2, Hs2, Hsp2, Hk3, Hs3, Hsp3, Hren1, Hren2, Hren3, Hren4.
  cbn [app]. rewrite app_nil_r.
  split; [by repeat (rewrite <- app_assoc; cbn [app])|].
  split_and!; auto.
  destruct r4 as [[]|msg|p].
  - destruct Hr4 as [-> ->]. by split_and!.
  - by right.
  - done.
Qed.

End UnitMore.

(** X6.  [processCommand] renders its templates in order and stops at the
    first one it cannot render.  When it returns a list, every template was
    compiled and rendered, and the list holds the text of each template, in
    order and one for one.  When it returns an error, this is the error of
    the first template that fails to render, and no template after it was
    executed.  It panics on the first nil template, if no template before it
    fails. *)
Theorem processCommand_first_failure (w : World) (e : Event)
  (ts : list (option Template)) (tr : Trace) :
  match (processCommand w e ts tr).2 with
  | Ok cmd =>
      Forall (fun t => exists t0, t = Some t0 /\ renders w e t0) ts /\
      cmd = textsOf w e ts /\ length cmd = length ts /\
      (processCommand w e ts tr).1 = tr ++ (ERender <$> omap id ts)
  | Err msg =>
      exists pre t post,
        ts = (Some <$> pre) ++ Some t :: post /\
        Forall (renders w e) pre /\ (tmplExecute w t e).2 = Some msg /\
        (processCommand w e ts tr).1 = tr ++ (ERender <$> pre ++ [t])
  | Panic p =>
      p = NilDereference /\
      exists pre post,
        ts = (Some <$> pre) ++ None :: post /\
        Forall (renders w e) pre /\
        (processCommand w e ts tr).1 = tr ++ (ERender <$> pre)
  end.
Proof.
  revert tr. induction ts as [|t ts IH]; intros tr.
  - simpl. split_and!; auto. by rewrite app_nil_r.
  - rewrite processCommand_cons, render_eq. destruct t as [t0|].
    + destruct (tmplExecute w t0 e) as [out [err|]] eqn:Ht.
      * cbn [fst snd]. exists [], t0, ts. split_and!; auto. by rewrite Ht.
      * specialize (IH (tr ++ [ERender t0])).
        destruct (processCommand w e ts (tr ++ [ERender t0])) as [tr' [cmd|msg|p]];
          cbn [fst snd] in *.
        -- destruct IH as (Hall & -> & Hlen & ->). split_and!.
           ++ constructor; [|done]. exists t0. split; [done|].
              unfold renders. by rewrite Ht.
           ++ unfold textsOf. change (omap id (Some t0 :: ts)) with (t0 :: omap id ts).
              cbn [fmap list_fmap]. f_equal. unfold textOf. by rewrite Ht.
           ++ simpl. by rewrite Hlen.
           ++ change (omap id (Some t0 :: ts)) with (t0 :: omap id ts).
              cbn [fmap list_fmap]. by rewrite <- app_assoc.
        -- destruct IH as (pre & t & post & -> & Hpre & Hfail & ->).
           exists (t0 :: pre), t, post. split_and!; auto.
           ++ constructor; [|done]. unfold renders. by rewrite Ht.
           ++ cbn [fmap list_fmap app]. by rewrite <- app_assoc.
        -- destruct IH as (-> & pre & post & -> & Hpre & ->). split; [done|].
           exists (t0 :: pre), post. split_and!; auto.
           ++ constructor; [|done]. unfold renders. by rewrite Ht.
           ++ cbn [fmap list_fmap app]. by rewrite <- app_assoc.
    + cbn [fst snd]. split; [done|]. exists [], ts. split_and!; auto.
      by rewrite app_nil_r.
Qed.


(** X8.  Every process of a unit is started with the same environment and
    the same directory: the rendered environment entries (none: the
    process inherits the environment of the server) and the rendered
    directory (the empty string without a directory template).  The commands
    are started in the order of the hook, never one twice; each is started
    as the path a look-up returned for its first rendered argument, followed
    by its other rendered arguments unchanged.  A unit that returns nil has
    started every command of the hook. *)
Theorem unit_starts_what_it_rendered (w : World) (hook : Hook) (e : Event) (tr : Trace) :
  exists evs cmds,
    (processEvent w hook e tr).1 = tr ++ evs /\
    spawnSettings evs =
      replicate (length (spawned evs)) (unitEnv w hook e, unitDir w hook e) /\
    spawned evs `prefix_of` cmds /\
    (spawned evs <> [] ->
       Forall2 (startedFrom w e (lookups evs)) (cmdTemplate hook) cmds) /\
    ((processEvent w hook e tr).2 = Ok tt ->
       spawned evs = cmds /\
       Forall2 (startedFrom w e (lookups evs)) (cmdTemplate hook) cmds).
Proof.
  destruct (processEvent_more w hook e tr) as (evs & cmds & H1 & _ & H3 & H4 & H5 & H6).
  exists evs, cmds. split_and!; auto.
  - intros Hne. by apply H5.
  - intros Hok. rewrite Hok in H6. by destruct H6 as (_ & ? & ? & _).
Qed.

(** X9.  A unit kills at most one process, and only on a timeout: the
    process it kills is the one it started last, the error it returns
    names that command, and nothing is started or killed after it.  A unit
    that returns nil, or that returns another error, or that panics, has
    killed nothing. *)
Theorem unit_kills_only_the_last_started (w : World) (hook : Hook) (e : Event)
  (tr : Trace) :
  exists evs,
    (processEvent w hook e tr).1 = tr ++ evs /\
    (kills evs = [] \/
     exists args,
       kills evs = [args] /\ last (spawned evs) = Some args /\
       (processEvent w hook e tr).2 =
         Err ("Command " +:+ fmtArgs args +:+ " timed out")) /\
    (forall msg, (processEvent w hook e tr).2 = Err msg ->
       (forall args, msg <> "Command " +:+ fmtArgs args +:+ " timed out") ->
       kills evs = []).
Proof.
  destruct (processEvent_more w hook e tr) as (evs & cmds & H1 & _ & _ & _ & _ & H6).
  exists evs. split; [done|].
  destruct ((processEvent w hook e tr).2) as [[]|msg|p].
  - split; [left; apply H6 | done].
  - destruct H6 as [Hk|(args & Hlast & Hk & ->)].
    + split; [by left | done].
    + split; [right; by exists args|]. intros msg [= <-] Hno. by destruct (Hno args).
  - split; [by left | done].
Qed.

(** ** The timer *)

(** X10.  A timeout that is zero or negative is no "no limit": the timer
    fires at once, and every child that takes any time at all, or hangs, is
    killed and reported as timed out.  The same happens for a timeout of
    9223372037 seconds or more (up to 18446744073), whose count of
    nanoseconds wraps around to a negative 64-bit number. *)
Theorem out_of_range_timeout_kills_at_once (w : World) (hook : Hook)
  (args env : list string) (dir : string) (tr : Trace) :
  args <> [] ->
  -9223372036 <= Timeout hook <= 0 \/ 9223372037 <= Timeout hook <= 18446744073 ->
  let tr1 := tr ++ [ELog Info (Running args); ESpawn args env dir] in
  child w tr1 = Hangs \/
    (exists elapsed status, child w tr1 = Exits elapsed status /\ 0 < elapsed) ->
  timerAt hook = 0 /\
  runCommand w hook args env dir tr =
  (tr1 ++ [EKill args], Err ("Command " +:+ fmtArgs args +:+ " timed out")).
Proof.
  intros Hargs Hrange tr1 Hchild.
  assert (Ht : timerAt hook = 0).
  { unfold timerAt, timerNanos, wrap64. destruct Hrange as [H|H].
    - rewrite Z.mod_small by lia. lia.
    - assert (Hm : (Timeout hook * 1000000000 + 2 ^ 63) mod 2 ^ 64
                   = Timeout hook * 1000000000 + 2 ^ 63 - 2 ^ 64).
      { symmetry. apply (Z.mod_unique_pos _ _ 1); lia. }
      rewrite Hm. lia. }
  split; [done|].
  rewrite runCommand_eq. destruct args as [|a args]; [done|]. cbv zeta. fold tr1.
  destruct Hchild as [Hc|(elapsed & status & Hc & He)]; rewrite Hc; [done|].
  cbn [doneAt]. rewrite Ht. by rewrite selectCase_timer_first by lia.
Qed.

Lemma out_of_range_timeout_kills_at_once_witness :
  runCommand Sample.world
    (newHook "/sleep" "" [] false [] [] [] [["sleep"; "5"]] 0)
    ["/bin/sleep"; "5"] [] "" [] =
  (([] ++ [ELog Info (Running ["/bin/sleep"; "5"]); ESpawn ["/bin/sleep"; "5"] [] ""])
     ++ [EKill ["/bin/sleep"; "5"]],
   Err ("Command " +:+ fmtArgs ["/bin/sleep"; "5"] +:+ " timed out")).
Proof.
  refine (proj2 (out_of_range_timeout_kills_at_once Sample.world
                   (newHook "/sleep" "" [] false [] [] [] [["sleep"; "5"]] 0)
                   ["/bin/sleep"; "5"] [] "" [] _ _ _)).
  - discriminate.
  - left. simpl. lia.
  - right. exists 5000000000, 0. split; [reflexivity | lia].
Defined.

(** ** main: loading the hooks *)

Lemma CreateTemplates_sources (w : World) (hook : Hook) :
  templateSources (CreateTemplates w hook).1 = templateSources hook.
Proof.
  destruct (CreateTemplates_idempotent w hook) as [(_ & H2 & H3 & _ & _ & _ & _ & H8 & _) _].
  unfold templateSources. by rewrite H2, H3, H8.
Qed.

(** X11.  What the loading loop of [main] does to one hook.  A timeout of 0
    is replaced by the server-wide [CommandTimeout], any other is kept; the
    secret [none] becomes the empty secret, an empty secret becomes the
    server-wide secret, any other is kept.  Nothing else of the
    configuration changes, and the hook counts as failed exactly when one
    of its template sources does not compile. *)
Theorem loadHook_defaults (w : World) (commandTimeout : Z) (secret : string) (h : Hook) :
  let h' := (loadHook w commandTimeout secret h).1 in
  Timeout h' = (if Timeout h =? 0 then commandTimeout else Timeout h) /\
  Secret h' = (if String.eqb (Secret h) "none" then ""
               else if String.eqb (Secret h) "" then secret else Secret h) /\
  Url h' = Url h /\ Dir h' = Dir h /\ Env h' = Env h /\ PerCommit h' = PerCommit h /\
  AllowEvent h' = AllowEvent h /\ AllowPipelineStatus h' = AllowPipelineStatus h /\
  AllowBranches h' = AllowBranches h /\ Commands h' = Commands h /\
  ((loadHook w commandTimeout secret h).2 = true <->
   firstError w (templateSources h) <> None).
Proof.
  unfold loadHook.
  set (h1 := if Timeout h =? 0 then set_Timeout h commandTimeout else h).
  set (h2 := if String.eqb (Secret h1) "none" then set_Secret h1 ""
             else if String.eqb (Secret h1) "" then set_Secret h1 secret else h1).
  destruct (CreateTemplates_idempotent w h2)
    as [(E1 & E2 & E3 & E4 & E5 & E6 & E7 & E8 & E9 & E10) _].
  destruct (CreateTemplates_first_error w h2) as (Herr & _ & _).
  assert (Hsrc : templateSources h2 = templateSources h).
  { unfold templateSources, h2, h1.
    destruct (Timeout h =? 0); cbn; destruct (String.eqb (Secret h) "none"); cbn;
      try done; destruct (String.eqb (Secret h) ""); done. }
  rewrite Hsrc in Herr.
  assert (Hfst : (let (h0, o) := CreateTemplates w h2 in
                  match o with Some _ => (h0, true) | None => (h0, false) end).1
                 = (CreateTemplates w h2).1).
  { by destruct (CreateTemplates w h2) as [h0 [err|]]. }
  assert (Hsnd : (let (h0, o) := CreateTemplates w h2 in
                  match o with Some _ => (h0, true) | None => (h0, false) end).2 = true
                 <-> (CreateTemplates w h2).2 <> None).
  { destruct (CreateTemplates w h2) as [h0 [err|]]; simpl; split; done. }
  cbv zeta. rewrite Hfst, Hsnd, Herr, E1, E2, E3, E4, E5, E6, E7, E8, E9, E10.
  unfold h2, h1.
  destruct (Timeout h =? 0); cbn; destruct (String.eqb (Secret h) "none"); cbn;
    try (by split_and!); destruct (String.eqb (Secret h) ""); by split_and!.
Qed.

(** X12.  The loading loop is all or nothing.  [RunServer] is reached
    exactly when every template source of every hook compiles; it is then
    called with as many hooks as were configured, in the same order and
    under the same URLs, each with its compiled structures in step with
    its sources.  One source that does not compile, in any hook, makes the
    process exit. *)
Theorem loadHooks_all_or_nothing (w : World) (commandTimeout : Z) (secret : string)
  (hooks : list Hook) :
  (loadHooks w commandTimeout secret hooks = None <->
   Exists (fun h => firstError w (templateSources h) <> None) hooks) /\
  (forall hooks',
     loadHooks w commandTimeout secret hooks = Some hooks' ->
     Url <$> hooks' = Url <$> hooks /\ Forall (consistent w) hooks').
Proof.
  split.
  - unfold loadHooks.
    assert (Hex : existsb snd (map (loadHook w commandTimeout secret) hooks) = true <->
                  Exists (fun h => firstError w (templateSources h) <> None) hooks).
    { induction hooks as [|h hooks IH]; simpl.
      - split; [done | by inversion 1].
      - rewrite orb_true_iff, IH, Exists_cons.
        destruct (loadHook_defaults w commandTimeout secret h)
          as (_ & _ & _ & _ & _ & _ & _ & _ & _ & _ & Hf).
        by rewrite Hf. }
    destruct (existsb snd (map (loadHook w commandTimeout secret) hooks)).
    + split; [intros _; by apply Hex | done].
    + split; [done|]. intros H. apply Hex in H. done.
  - intros hooks' Hload. split; [|by eapply loadHooks_consistent].
    unfold loadHooks in Hload.
    destruct (existsb snd (map (loadHook w commandTimeout secret) hooks)); [done|].
    injection Hload as <-. clear. induction hooks as [|h hooks IH]; [done|].
    cbn [map fmap list_fmap]. f_equal; [|exact IH].
    by destruct (loadHook_defaults w commandTimeout secret h) as (_ & _ & H & _).
Qed.

Lemma loadHooks_all_or_nothing_witness :
  loadHooks Sample.world 5 "" [Sample.badEnv] = None.
Proof.
  apply (proj1 (loadHooks_all_or_nothing Sample.world 5 "" [Sample.badEnv])).
  left. discriminate.
Defined.

(** ** hookHandler *)

Section BoundaryFacts.

Variable NewEvent : string -> string -> Res Event.
Variable paramsValue : gmap string string -> Value.
Variable jsonIndent : string -> string.
Variable verbose2 : bool.

#[local] Abbreviation handler :=
  (hookHandler NewEvent paramsValue jsonIndent verbose2).

(** The three ways a call of the handler goes, in the order of its tests. *)
Lemma hookHandler_cases (r : Request) (params : gmap string string) (hook : Hook) :
  (16384 < ContentLength r /\
   handler r params hook = mkResponse (Some StatusRequestEntityTooLarge) [] None) \/
  (ContentLength r <= 16384 /\ Secret hook <> "" /\
   headerGet r "X-Gitlab-Token" <> Secret hook /\
   respStatus (handler r params hook) = Some StatusForbidden /\
   respDispatched (handler r params hook) = None) \/
  (ContentLength r <= 16384 /\
   (Secret hook = "" \/ headerGet r "X-Gitlab-Token" = Secret hook) /\
   respStatus (handler r params hook) = None /\
   respDispatched (handler r params hook) =
     match NewEvent (Body r) (headerGet r "X-Gitlab-Event") with
     | Val event => Some (<["urlparams" := paramsValue params]> event)
     | Fail _ => None
     end).
Proof.
  unfold handler, hookHandler.
  destruct (Z.ltb_spec 16384 (ContentLength r)) as [Hbig|Hsmall]; [by left|].
  right. destruct (String.eqb_spec (Secret hook) "") as [Hs|Hs]; cbn [negb].
  - right. split_and!; auto;
      by destruct (NewEvent (Body r) (headerGet r "X-Gitlab-Event")).
  - destruct (String.eqb_spec (headerGet r "X-Gitlab-Token") "") as [Ht|Ht]; cbn [negb].
    + left. split_and!; auto. congruence.
    + destruct (String.eqb_spec (headerGet r "X-Gitlab-Token") (Secret hook)) as [He|He];
        cbn [negb].
      * right. split_and!; auto;
          by destruct (NewEvent (Body r) (headerGet r "X-Gitlab-Event")).
      * left. by split_and!.
Qed.

(** X13.  The status the handler writes.  It answers 413 exactly when the
    declared length is above 16384; the test looks at the declared length
    only, so a request of unknown length (-1) is never refused for its
    size, whatever its body holds.  It answers 403 exactly when the size
    test passes, the hook has a secret and the token header is not that
    secret (an absent or empty header included).  In every other case it
    writes no status, which the server sends as 200: a payload that cannot
    be decoded is answered like one that is dispatched. *)
Theorem hookHandler_status (r : Request) (params : gmap string string) (hook : Hook) :
  (respStatus (handler r params hook) = Some StatusRequestEntityTooLarge <->
   16384 < ContentLength r) /\
  (respStatus (handler r params hook) = Some StatusForbidden <->
   ContentLength r <= 16384 /\ Secret hook <> "" /\
   headerGet r "X-Gitlab-Token" <> Secret hook) /\
  (respStatus (handler r params hook) = None <->
   ContentLength r <= 16384 /\
   (Secret hook = "" \/ headerGet r "X-Gitlab-Token" = Secret hook)).
Proof.
  destruct (hookHandler_cases r params hook)
    as [[H1 ->]|[(H1 & H2 & H3 & -> & _)|(H1 & H2 & -> & _)]].
  all: cbn [respStatus]; unfold StatusForbidden, StatusRequestEntityTooLarge;
    intuition (try lia; try discriminate; try congruence).
Qed.

(** X14.  When the handler starts [Execute].  An event is dispatched
    exactly when the declared length is at most 16384, the hook has no
    secret or the token header equals it, and the payload decodes.  The
    event dispatched is the decoded one with the URL parameters stored
    under [urlparams], in place of whatever the payload had under that key;
    every other key is as decoded.  With a secret set, nothing is ever
    dispatched for a request whose token is absent, empty or different. *)
Theorem hookHandler_dispatch (r : Request) (params : gmap string string) (hook : Hook) :
  (forall ev,
     respDispatched (handler r params hook) = Some ev <->
     ContentLength r <= 16384 /\
     (Secret hook = "" \/ headerGet r "X-Gitlab-Token" = Secret hook) /\
     exists event,
       NewEvent (Body r) (headerGet r "X-Gitlab-Event") = Val event /\
       ev = <["urlparams" := paramsValue params]> event) /\
  (forall ev event,
     respDispatched (handler r params hook) = Some ev ->
     NewEvent (Body r) (headerGet r "X-Gitlab-Event") = Val event ->
     ev !! "urlparams" = Some (paramsValue params) /\
     forall k, k <> "urlparams" -> ev !! k = event !! k) /\
  (Secret hook <> "" -> headerGet r "X-Gitlab-Token" <> Secret hook ->
   respDispatched (handler r params hook) = None).
Proof.
  assert (Hmain : forall ev,
     respDispatched (handler r params hook) = Some ev <->
     ContentLength r <= 16384 /\
     (Secret hook = "" \/ headerGet r "X-Gitlab-Token" = Secret hook) /\
     exists event,
       NewEvent (Body r) (headerGet r "X-Gitlab-Event") = Val event /\
       ev = <["urlparams" := paramsValue params]> event).
  { intros ev. destruct (hookHandler_cases r params hook)
      as [[H1 ->]|[(H1 & H2 & H3 & _ & ->)|(H1 & H2 & _ & ->)]].
    - cbn. split; [done|]. intros [? _]. lia.
    - split; [done|]. intros (_ & [?|?] & _); congruence.
    - destruct (NewEvent (Body r) (headerGet r "X-Gitlab-Event")) as [event|err].
      + split.
        * intros [= <-]. split_and!; eauto.
        * intros (_ & _ & event' & [= <-] & ->). done.
      + split; [done|]. intros (_ & _ & event' & ? & _). done. }
  split_and!.
  - exact Hmain.
  - intros ev event Hd Hn. apply Hmain in Hd as (_ & _ & event' & Hn' & ->).
    rewrite Hn in Hn'. injection Hn' as <-. split.
    + apply lookup_insert_eq.
    + intros k Hk. by apply lookup_insert_ne.
  - intros Hs Ht.
    destruct (hookHandler_cases r params hook)
      as [[_ ->]|[(_ & _ & _ & _ & ->)|(_ & [?|?] & _)]]; done.
Qed.

End BoundaryFacts.

Lemma hookHandler_status_witness :
  respStatus (SampleHttp.handler (SampleHttp.request (-1) None "{}") ∅
                SampleHttp.secretHook) = Some StatusForbidden /\
  respStatus (SampleHttp.handler (SampleHttp.request 2 (Some "s3cret") "{") ∅
                SampleHttp.secretHook) = None.
Proof.
  split.
  - apply (proj1 (proj2 (hookHandler_status SampleHttp.NewEvent SampleHttp.paramsValue
                           (fun s => s) false
                           (SampleHttp.request (-1) None "{}") ∅ SampleHttp.secretHook))).
    split_and!; [by vm_compute | discriminate | discriminate].
  - apply (proj2 (proj2 (hookHandler_status SampleHttp.NewEvent SampleHttp.paramsValue
                           (fun s => s) false
                           (SampleHttp.request 2 (Some "s3cret") "{") ∅
                           SampleHttp.secretHook))).
    split; [by vm_compute | by right].
Defined.

Lemma hookHandler_dispatch_witness :
  respDispatched
    (SampleHttp.handler (SampleHttp.request 2 (Some "wrong") "{}") ∅
       SampleHttp.secretHook) = None /\
  respDispatched
    (SampleHttp.handler (SampleHttp.request 2 (Some "s3cret") "{}")
       {[ "id" := "7" ]} SampleHttp.secretHook) =
  Some (<["urlparams" := SampleHttp.paramsValue {[ "id" := "7" ]}]> ∅).
Proof.
  split.
  - apply (proj2 (proj2 (hookHandler_dispatch SampleHttp.NewEvent SampleHttp.paramsValue
                           (fun s => s) false
                           (SampleHttp.request 2 (Some "wrong") "{}") ∅
                           SampleHttp.secretHook))); discriminate.
  - apply (proj1 (hookHandler_dispatch SampleHttp.NewEvent SampleHttp.paramsValue
                    (fun s => s) false
                    (SampleHttp.request 2 (Some "s3cret") "{}") {[ "id" := "7" ]}
                    SampleHttp.secretHook)).
    split_and!; [by vm_compute | by right | by exists ∅].
Defined.

(** ** From the configuration to a request *)

(** X15.  The secret a request needs after the hook went through the
    loading loop of [main].  A hook whose own secret is [none] asks for no
    token, even when the server has a secret.  A hook without a secret of
    its own asks for the server-wide secret: nothing is dispatched unless
    the token equals it, and if the server has none either, no token is
    asked for.  The word [none] is understood in the hook's own secret
    only: as the server-wide secret it is an ordinary secret, and a hook
    that inherits it refuses every request whose token is not [none]. *)
Theorem secret_required_after_loading (w : World) (NewEvent : string -> string -> Res Event)
  (paramsValue : gmap string string -> Value) (jsonIndent : string -> string)
  (verbose2 : bool) (commandTimeout : Z) (secret : string) (h : Hook)
  (r : Request) (params : gmap string string) :
  let h' := (loadHook w commandTimeout secret h).1 in
  let response := hookHandler NewEvent paramsValue jsonIndent verbose2 r params h' in
  ContentLength r <= 16384 ->
  (Secret h = "none" -> respStatus response = None) /\
  (Secret h = "" -> secret = "" -> respStatus response = None) /\
  (Secret h = "" -> secret <> "" ->
     (headerGet r "X-Gitlab-Token" = secret -> respStatus response = None) /\
     (headerGet r "X-Gitlab-Token" <> secret ->
        respStatus response = Some StatusForbidden /\ respDispatched response = None)) /\
  (Secret h = "" -> secret = "none" -> headerGet r "X-Gitlab-Token" <> "none" ->
     respStatus response = Some StatusForbidden).
Proof.
  intros h' response Hlen.
  destruct (loadHook_defaults w commandTimeout secret h) as (_ & Hsec & _).
  fold h' in Hsec.
  destruct (hookHandler_status NewEvent paramsValue jsonIndent verbose2 r params h')
    as (_ & H403 & Hnone).
  destruct (hookHandler_dispatch NewEvent paramsValue jsonIndent verbose2 r params h')
    as (_ & _ & Hno).
  fold response in H403, Hnone, Hno.
  split_and!.
  - intros Hs. rewrite Hs in Hsec. simpl in Hsec. apply Hnone. split; [done | by left].
  - intros Hs ->. rewrite Hs in Hsec. simpl in Hsec. apply Hnone. split; [done | by left].
  - intros Hs Hne. rewrite Hs in Hsec. simpl in Hsec. split.
    + intros Ht. apply Hnone. split; [done|]. right. congruence.
    + intros Ht. split.
      * apply H403. split_and!; congruence.
      * apply Hno; congruence.
  - intros Hs -> Ht. rewrite Hs in Hsec. simpl in Hsec.
    apply H403. split_and!; congruence.
Qed.

Lemma secret_required_after_loading_witness :
  respStatus
    (hookHandler SampleHttp.NewEvent SampleHttp.paramsValue (fun s => s) false
       (SampleHttp.request 2 None "{}") ∅
       (loadHook Sample.world 5 "server" SampleHttp.optOutHook).1) = None.
Proof.
  refine (proj1 (secret_required_after_loading Sample.world SampleHttp.NewEvent
                   SampleHttp.paramsValue (fun s => s) false 5 "server"
                   SampleHttp.optOutHook (SampleHttp.request 2 None "{}") ∅ _) _).
  - by vm_compute.
  - reflexivity.
Defined.

(** X16.  Every unit [Execute] enters sees the event it was called with,
    but for the key [commit]: whether the hook is per-commit or not, all
    other keys have the values of the dispatched event.  In particular the
    URL parameters the handler stored under [urlparams] reach every unit
    of the dispatch. *)
Theorem units_see_the_dispatched_event (w : World) (hook : Hook) (e : Event) (tr : Trace) :
  (exists evs,
     (Execute w hook e tr).2.1 = tr ++ evs /\
     Forall (fun e' => forall k, k <> "commit" -> e' !! k = e !! k) (calls evs)) /\
  (forall NewEvent paramsValue jsonIndent verbose2 r params,
     respDispatched (hookHandler NewEvent paramsValue jsonIndent verbose2 r params hook)
       = Some e ->
     exists evs,
       (Execute w hook e tr).2.1 = tr ++ evs /\
       Forall (fun e' => e' !! "urlparams" = Some (paramsValue params)) (calls evs)).
Proof.
  assert (Hmain : exists evs,
     (Execute w hook e tr).2.1 = tr ++ evs /\
     Forall (fun e' => forall k, k <> "commit" -> e' !! k = e !! k) (calls evs)).
  { unfold Execute.
    destruct (checkEventType hook e) as [[sev msg]|];
      [exists [ELog sev msg]; split; [done | constructor]|].
    destruct (checkPipelineStatus hook e) as [[sev msg]|];
      [exists [ELog sev msg]; split; [done | constructor]|].
    destruct (checkBranch hook e) as [[sev msg]|];
      [exists [ELog sev msg]; split; [done | constructor]|].
    unfold dispatch. destruct (PerCommit hook).
    - destruct (Commits w e) as [commits|].
      + destruct (perCommit_spec w hook commits e tr) as (evs & n & H1 & H2 & _).
        exists evs. split; [done|]. rewrite H2. apply Forall_fmap, Forall_forall.
        intros c _ k Hk. simpl. unfold withCommit. by rewrite lookup_insert_ne.
      + exists []. split; [by rewrite app_nil_r | constructor].
    - destruct (processAndLog_spec w hook e tr) as (evs & H1 & H2 & _).
      exists evs. split; [done|]. rewrite H2. by repeat constructor. }
  split; [exact Hmain|].
  intros NewEvent paramsValue jsonIndent verbose2 r params Hd.
  destruct Hmain as (evs & H1 & H2). exists evs. split; [done|].
  destruct (hookHandler_dispatch NewEvent paramsValue jsonIndent verbose2 r params hook)
    as (Hiff & _ & _).
  apply Hiff in Hd as (_ & _ & event & _ & He).
  eapply Forall_impl; [exact H2|]. intros e' He'. cbn beta in He'.
  rewrite He' by done. rewrite He. apply lookup_insert_eq.
Qed.

Lemma units_see_the_dispatched_event_witness :
  exists evs,
    (Execute Sample.world SampleHttp.secretHook
       (<["urlparams" := SampleHttp.paramsValue {[ "id" := "7" ]}]> ∅) []).2.1 = [] ++ evs /\
    Forall (fun e' => e' !! "urlparams" = Some (SampleHttp.paramsValue {[ "id" := "7" ]}))
      (calls evs).
Proof.
  refine (proj2 (units_see_the_dispatched_event Sample.world SampleHttp.secretHook
                   (<["urlparams" := SampleHttp.paramsValue {[ "id" := "7" ]}]> ∅) [])
            SampleHttp.NewEvent SampleHttp.paramsValue (fun s => s) false
            (SampleHttp.request 2 (Some "s3cret") "{}") {[ "id" := "7" ]} _).
  reflexivity.
Defined.

(** ** main: the command line *)

(** X17.  How [main] divides the positional arguments.  With the
    environment variable [UNWEBHOOK_CONFFILE] set, the configuration is
    read from it and every argument is a hook path.  Without it, the first
    argument is the configuration file and the others are hook paths, and
    with no argument at all the configuration file is the program name
    followed by [.conf].  In each case the hook paths of the configuration
    come first, and every argument is used exactly once, in order. *)
Theorem main_uses_each_argument_once (confFile argv0 : string)
  (configHookPaths args : list string) :
  let '(path, start) := mainConfig confFile args argv0 in
  (confFile <> "" ->
     path = confFile /\ hookPaths configHookPaths args start = configHookPaths ++ args) /\
  (confFile = "" ->
     match args with
     | [] => path = argv0 +:+ ".conf" /\
             hookPaths configHookPaths args start = configHookPaths
     | arg0 :: rest =>
         path = arg0 /\ hookPaths configHookPaths args start = configHookPaths ++ rest
     end).
Proof.
  unfold mainConfig, hookPaths.
  destruct (String.eqb_spec confFile "") as [->|Hne].
  - destruct args as [|arg0 rest].
    + split; [done|]. intros _. split; [done|]. cbn. by rewrite app_nil_r.
    + split; [done|]. intros _. split; [done|].
      destruct rest as [|x l]; cbn; [by rewrite app_nil_r | done].
  - split; [|done]. intros _. split; [done|].
    destruct args as [|x l]; cbn; [by rewrite app_nil_r | done].
Qed.

Lemma main_uses_each_argument_once_witness :
  mainConfig "" ["server.conf"; "hooks.d"] "unwebhook" = ("server.conf", 1%nat) /\
  hookPaths ["/etc/hooks"] ["server.conf"; "hooks.d"] 1 = ["/etc/hooks"] ++ ["hooks.d"].
Proof.
  split; [reflexivity|].
  exact (proj2 (proj2 (main_uses_each_argument_once "" "unwebhook" ["/etc/hooks"]
                         ["server.conf"; "hooks.d"]) eq_refl)).
Defined.

(** ** Instances *)

Lemma Execute_drops_errors_writes_commit_only_witness :
  (Execute Sample.world Sample.sleepFive Sample.pushMain []).1 = Sample.pushMain.
Proof.
  apply (proj2 (proj2 (proj2 (Execute_drops_errors_writes_commit_only Sample.world
           Sample.sleepFive Sample.pushMain [])))).
  reflexivity.
Defined.


Lemma unit_starts_what_it_rendered_witness :
  exists evs cmds,
    (processEvent Sample.world Sample.echoRef Sample.pushMain []).1 = [] ++ evs /\
    spawned evs = cmds /\
    Forall2 (startedFrom Sample.world Sample.pushMain (lookups evs))
      (cmdTemplate Sample.echoRef) cmds.
Proof.
  destruct (unit_starts_what_it_rendered Sample.world Sample.echoRef Sample.pushMain [])
    as (evs & cmds & H1 & _ & _ & _ & H5).
  exists evs, cmds. split; [exact H1|]. apply H5. reflexivity.
Defined.

Lemma unit_kills_only_the_last_started_witness :
  exists evs,
    (processEvent Sample.world Sample.missingProgram ∅ []).1 = [] ++ evs /\
    kills evs = [].
Proof.
  destruct (unit_kills_only_the_last_started Sample.world Sample.missingProgram ∅ [])
    as (evs & H1 & _ & H3).
  exists evs. split; [exact H1|].
  apply (H3 "Executable nosuchprogram executable file not found in $PATH").
  - reflexivity.
  - intros args. discriminate.
Defined.

Lemma loadHook_defaults_witness :
  (loadHook Sample.world 5 "server" Sample.badEnv).2 = true.
Proof.
  apply (proj2 (proj2 (proj2 (proj2 (proj2 (proj2 (proj2 (proj2 (proj2 (proj2
           (loadHook_defaults Sample.world 5 "server" Sample.badEnv))))))))))).
  discriminate.
Defined.
